(** * fetch-games.py: a shallow embedding and its properties

    The script resolves every game identifier of a fixed list to a catalog
    record, downloads the record's launch URL directly or through the
    Wayback Machine, keeps the body only when it carries an SWF signature
    and files the identifier under one of three outcomes.

    Modelling conventions.
    - Python [str] is a Rocq [string] holding the text's UTF-8 bytes.
      [str.lower()] is applied to text that comes from the network, so it
      is the interpreter's: the runtime supplies it ([str_lower]), and
      [Text.lower] is what it does on ASCII text.  [str.title()] is
      applied to the identifiers only, which are ASCII; [Text.title] is
      [str.title()] on ASCII text.
    - Python [bytes] is a [list byte].
    - A decoded JSON document is a [json] value; Python's truthiness, [len],
      iteration, indexing and attribute lookup on such values are written
      out, including the exception each of them raises on a value of the
      wrong type.
    - Effects are explicit: a computation maps a [world] (stored files,
      the log of network requests, the number of polite pauses) to a
      [result] and a new world.  An uncaught Python exception is [Raise].
    - What the interpreter and the outside world decide (the responses of
      the network, [json.loads], the URL check of
      [urllib.request.Request], [str()] of a non-string value,
      [str.lower()], the directory of the script) is a [runtime] record
      the definitions take as a section variable. *)

From Stdlib Require Import ZArith QArith Lia Bool List.
From Stdlib Require Import Strings.Ascii Strings.String Strings.Byte.
From stdpp Require Import gmap strings list.

Local Open Scope string_scope.
Local Open Scope list_scope.

(** ** Text *)

Module Text.

Definition is_upper (c : ascii) : bool :=
  let n := nat_of_ascii c in (65 <=? n)%nat && (n <=? 90)%nat.

Definition is_lower (c : ascii) : bool :=
  let n := nat_of_ascii c in (97 <=? n)%nat && (n <=? 122)%nat.

(** A cased character: one that has an upper or a lower case form. *)
Definition is_cased (c : ascii) : bool := is_upper c || is_lower c.

Definition to_lower (c : ascii) : ascii :=
  if is_upper c then ascii_of_nat (nat_of_ascii c + 32) else c.

Definition to_upper (c : ascii) : ascii :=
  if is_lower c then ascii_of_nat (nat_of_ascii c - 32) else c.

(** Text of ASCII characters only. *)
Fixpoint is_ascii (s : string) : bool :=
  match s with
  | EmptyString => true
  | String c r => (nat_of_ascii c <? 128)%nat && is_ascii r
  end.

(** [s.lower()] on ASCII text. *)
Fixpoint lower (s : string) : string :=
  match s with
  | EmptyString => EmptyString
  | String c r => String (to_lower c) (lower r)
  end.

(** [s.title()] on ASCII text, which the identifiers are: a cased
    character that follows an uncased one (or starts the string) is put in
    upper case, one that follows a cased character in lower case. *)
Fixpoint title_from (previous_is_cased : bool) (s : string) : string :=
  match s with
  | EmptyString => EmptyString
  | String c r =>
      String (if previous_is_cased then to_lower c else to_upper c)
             (title_from (is_cased c) r)
  end.

Definition title (s : string) : string := title_from false s.

(** A run of letters. *)
Fixpoint all_cased (s : string) : bool :=
  match s with
  | EmptyString => true
  | String c r => is_cased c && all_cased r
  end.

(** [s.replace(old, new)] for one-character [old] and [new]. *)
Fixpoint replace (old new : ascii) (s : string) : string :=
  match s with
  | EmptyString => EmptyString
  | String c r =>
      String (if Ascii.eqb c old then new else c) (replace old new r)
  end.

(** [s.startswith(p)] *)
Fixpoint startswith (s p : string) : bool :=
  match p, s with
  | EmptyString, _ => true
  | String _ _, EmptyString => false
  | String a p', String b s' => Ascii.eqb a b && startswith s' p'
  end.

(** [p in s] on strings: [p] occurs in [s] as a contiguous run. *)
Fixpoint contains (p s : string) : bool :=
  startswith s p ||
  match s with
  | EmptyString => false
  | String _ r => contains p r
  end.

(** The characters of a string, each as a one-character string (what
    iterating over or indexing a [str] yields). *)
Fixpoint chars (s : string) : list string :=
  match s with
  | EmptyString => []
  | String c r => String c EmptyString :: chars r
  end.

End Text.

(** ** SWF signature check *)

Definition bytes := list byte.

#[global] Instance byte_eq_decision : EqDecision byte := Byte.byte_eq_dec.

Definition bytes_of (s : string) : bytes := list_byte_of_string s.

(** [data[:3] in (b"FWS", b"CWS", b"ZWS")] *)
Definition has_swf_magic (data : bytes) : bool :=
  let head := take 3 data in
  bool_decide (head = bytes_of "FWS") || bool_decide (head = bytes_of "CWS")
  || bool_decide (head = bytes_of "ZWS").

(** [is_valid_swf]; the argument is what [http_get] returned, [None]
    included. *)
Definition is_valid_swf (data : option bytes) : bool :=
  match data with
  | None => false
  | Some d =>
      if bool_decide (d = []) || (length d <? 8)%nat then false
      else has_swf_magic d
  end.

(** ** Identifier to search title *)

Definition TITLE_OVERRIDES : gmap string string :=
  list_to_map
    [ ("14303_vrdefendery3k", "VR Defender Y3K");
      ("1048_castle", "1048 Castle");
      ("alien-hominid", "Alien Hominid");
      ("bot-arena-2", "Bot Arena 2");
      ("bow-master-prelude", "Bow Master Prelude");
      ("bubble-tanks-2", "Bubble Tanks 2");
      ("bunny-invasion-2", "Bunny Invasion 2");
      ("copter", "Helicopter Game");
      ("crush-the-castle", "Crush the Castle");
      ("d-fence-2", "D-Fence 2");
      ("defend-your-castle", "Defend Your Castle");
      ("demonic-defence-3", "Demonic Defence 3");
      ("dolphin-olympics-2", "Dolphin Olympics 2");
      ("double-wires", "Double Wires");
      ("fancy-pants-adventure", "The Fancy Pants Adventures");
      ("fancy-pants-adventure-2", "The Fancy Pants Adventures: World 2");
      ("gem-tower-defense", "Gem Tower Defense");
      ("gravity-game", "Gravity Game");
      ("gunmaster-jungle", "Gunmaster Jungle");
      ("hot-air-baloons", "Hot Air Balloon");
      ("interactive-buddy", "Interactive Buddy");
      ("line-rider-beta-2", "Line Rider");
      ("the-last-stand-2", "The Last Stand 2");
      ("madness-accelerant", "Madness Accelerant");
      ("max-dirtbike", "Max Dirt Bike");
      ("me2d-game", "ME2D");
      ("missile-game-3d", "Missile Game 3D");
      ("n-ninja", "N (The Way of the Ninja)");
      ("pet-protector-2", "Pet Protector 2");
      ("phage-wars", "Phage Wars");
      ("portal", "Portal: The Flash Version");
      ("raiden-x", "Raiden X");
      ("realm-of-the-mad-god", "Realm of the Mad God");
      ("sonny-2", "Sonny 2");
      ("stick-strike", "Stick Strike");
      ("super-mario-flash", "Super Mario Flash");
      ("super-smash-flash", "Super Smash Flash");
      ("bloons-tower-defense-3", "Bloons Tower Defense 3");
      ("bloons-tower-defense-4", "Bloons Tower Defense 4") ].

(** [slug.replace("-", " ").replace("_", " ").title()] *)
Definition default_title (slug : string) : string :=
  Text.title (Text.replace "_" " " (Text.replace "-" " " slug)).

Definition slug_to_title (slug : string) : string :=
  match TITLE_OVERRIDES !! slug with
  | Some t => t
  | None => default_title slug
  end.

(** ** Decoded JSON values and the Python operations applied to them *)

#[local] Set Warnings "-register-all".

Inductive json : Type :=
| JNull
| JBool (v : bool)
| JInt (n : Z)
| JFloat (q : Q)
| JStr (s : string)
| JArr (items : list json)
| JObj (fields : list (string * json)).

(** The exceptions the script's own expressions can raise. *)
Inductive exn : Type :=
| AttributeError | TypeError | KeyError | IndexError | ValueError.

Inductive result (A : Type) : Type :=
| Ok (a : A)
| Raise (e : exn).
Arguments Ok {A} a.
Arguments Raise {A} e.

Definition rbind {A B : Type} (m : result A) (k : A -> result B) : result B :=
  match m with
  | Ok a => k a
  | Raise e => Raise e
  end.

Notation "'let?' x ':=' m 'in' k" := (rbind m (fun x => k))
  (at level 10, x name, m at level 100, k at level 200).

Module Py.

(** [bool(v)]: what [if v] and [not v] look at. *)
Definition truthy (v : json) : bool :=
  match v with
  | JNull => false
  | JBool t => t
  | JInt n => negb (n =? 0)%Z
  | JFloat q => negb (Qeq_bool q 0)
  | JStr s => negb (String.eqb s "")
  | JArr items => match items with [] => false | _ :: _ => true end
  | JObj fields => match fields with [] => false | _ :: _ => true end
  end.

(** [for r in v]: the items the loop visits; a [dict] yields its keys, a
    [str] its characters, and a value that is not iterable raises. *)
Definition iter (v : json) : result (list json) :=
  match v with
  | JArr items => Ok items
  | JObj fields => Ok (map (fun kv => JStr (fst kv)) fields)
  | JStr s => Ok (map JStr (Text.chars s))
  | _ => Raise TypeError
  end.

(** A [dict] is the list of its items in insertion order, one per key. *)
Fixpoint assoc (key : string) (fields : list (string * json)) : option json :=
  match fields with
  | [] => None
  | (k, v) :: rest => if String.eqb k key then Some v else assoc key rest
  end.

(** [v.get(key, default)]: only a [dict] has the method. *)
Definition get (v : json) (key : string) (default : json) : result json :=
  match v with
  | JObj fields => Ok (match assoc key fields with Some x => x | None => default end)
  | _ => Raise AttributeError
  end.

(** [v.lower()]: only a [str] has the method; [str_lower] is
    [str.lower]. *)
Definition lower (str_lower : string -> string) (v : json) : result string :=
  match v with
  | JStr s => Ok (str_lower s)
  | _ => Raise AttributeError
  end.

(** [len(v)] *)
Definition len (v : json) : result nat :=
  match v with
  | JArr items => Ok (length items)
  | JObj fields => Ok (length fields)
  | JStr s => Ok (String.length s)
  | _ => Raise TypeError
  end.

(** [v[i]] for an integer literal [i >= 0].  The keys of a decoded object
    are strings, so an integer subscript of a [dict] is never found. *)
Definition index (v : json) (i : nat) : result json :=
  match v with
  | JArr items =>
      match nth_error items i with Some x => Ok x | None => Raise IndexError end
  | JStr s =>
      match nth_error (Text.chars s) i with
      | Some c => Ok (JStr c)
      | None => Raise IndexError
      end
  | JObj _ => Raise KeyError
  | _ => Raise TypeError
  end.

(** [bool(data)] for what [http_get] returns: [None] and [b""] are false. *)
Definition some_bytes (data : option bytes) : bool :=
  match data with
  | None => false
  | Some d => match d with [] => false | _ :: _ => true end
  end.

End Py.

(** ** [urllib.parse.urlencode] *)

Module Url.

Definition is_digit (c : ascii) : bool :=
  let n := nat_of_ascii c in (48 <=? n)%nat && (n <=? 57)%nat.

(** The characters [quote] never escapes: letters, digits and [_.-~]. *)
Definition always_safe (c : ascii) : bool :=
  Text.is_upper c || Text.is_lower c || is_digit c
  || Ascii.eqb c "_" || Ascii.eqb c "." || Ascii.eqb c "-" || Ascii.eqb c "~".

Definition hex_digit (n : nat) : ascii :=
  if (n <? 10)%nat then ascii_of_nat (48 + n) else ascii_of_nat (55 + n).

(** [quote_plus(s)]: a space becomes [+], an unsafe byte [%XX]. *)
Fixpoint quote_plus (s : string) : string :=
  match s with
  | EmptyString => EmptyString
  | String c r =>
      if always_safe c then String c (quote_plus r)
      else if Ascii.eqb c " " then String "+" (quote_plus r)
      else
        let n := nat_of_ascii c in
        String "%" (String (hex_digit (n / 16)) (String (hex_digit (n mod 16))
                                                        (quote_plus r)))
  end.

Definition pair_text (kv : string * string) : string :=
  quote_plus (fst kv) +:+ "=" +:+ quote_plus (snd kv).

Fixpoint join_amp (l : list string) : string :=
  match l with
  | [] => ""
  | [x] => x
  | x :: rest => x +:+ "&" +:+ join_amp rest
  end.

(** [urlencode(d)] for a dict [d] given as its items in order. *)
Definition urlencode (query : list (string * string)) : string :=
  join_amp (map pair_text query).

End Url.

(** [os.path.join(a, b)] on POSIX. *)
Definition os_path_join (a p : string) : string :=
  if Text.startswith p "/" then p
  else if String.eqb a "" || Text.startswith (String.rev a) "/" then a +:+ p
  else a +:+ "/" +:+ p.

(** ** The world the script runs in *)

(** One call of [urllib.request.urlopen]. *)
Record request : Type := Request { req_url : string; req_timeout : Z }.

(** What the script does not decide itself.
    - [respond log rq]: the body [urlopen(rq).read()] yields after the
      requests of [log]; [None] stands for every exception raised inside
      the [try] of [http_get].
    - [json_loads data]: the decoded document, [None] when [json.loads]
      raises.
    - [url_type_known url]: whether [urllib.request.Request(url)] accepts
      the URL; it raises [ValueError] on a URL without a scheme, and
      [http_get] builds the request before its [try].
    - [str_of v]: [str(v)] of a value that is not a string.
    - [script_dir]: [os.path.dirname(__file__)].
    - [str_lower s]: [s.lower()], which folds case by the Unicode tables
      (the Kelvin sign becomes [k]); on ASCII text it is [Text.lower]. *)
Record runtime : Type := Runtime {
  respond : list request -> request -> option bytes;
  json_loads : bytes -> option json;
  url_type_known : string -> bool;
  str_of : json -> string;
  script_dir : string;
  str_lower : string -> string
}.

(** A lower-casing that does on ASCII text what [str.lower()] does. *)
Definition ascii_faithful (lower : string -> string) : Prop :=
  forall s : string, Text.is_ascii s = true -> lower s = Text.lower s.

(** The state the script changes: the files under [games/] (a path and its
    content), the requests sent so far, and the number of one-second pauses
    taken. *)
Record world : Type := World {
  files : gmap string bytes;
  sent : list request;
  naps : nat
}.

Definition M (A : Type) : Type := world -> result A * world.

Definition ret {A : Type} (a : A) : M A := fun w => (Ok a, w).

Definition throw {A : Type} (e : exn) : M A := fun w => (Raise e, w).

Definition bind {A B : Type} (m : M A) (k : A -> M B) : M B :=
  fun w =>
    match m w with
    | (Ok a, w') => k a w'
    | (Raise e, w') => (Raise e, w')
    end.

Definition lift {A : Type} (r : result A) : M A :=
  match r with
  | Ok a => ret a
  | Raise e => throw e
  end.

Notation "'let*' x ':=' m 'in' k" := (bind m (fun x => k))
  (at level 10, x name, m at level 100, k at level 200).

(** The world after one more request. *)
Definition logged (w : world) (rq : request) : world :=
  World (files w) (sent w ++ [rq]) (naps w).

(** [os.path.exists(path)] *)
Definition path_exists (path : string) : M bool :=
  fun w => (Ok (bool_decide (is_Some (files w !! path))), w).

(** [with open(path, "wb") as f: f.write(data)] *)
Definition write_file (path : string) (data : bytes) : M unit :=
  fun w => (Ok tt, World (<[path := data]> (files w)) (sent w) (naps w)).

(** The world after one more pause. *)
Definition paused (w : world) : world :=
  World (files w) (sent w) (S (naps w)).

(** [time.sleep(1.0)] *)
Definition sleep : M unit := fun w => (Ok tt, paused w).

Inductive outcome : Type := ok | skip | fail.

#[global] Instance outcome_eq_decision : EqDecision outcome.
Proof. solve_decision. Defined.

(** The dict [results] of [main]: one list of slugs per outcome. *)
Record tally : Type := Tally {
  t_ok : list string;
  t_skip : list string;
  t_fail : list string
}.

(** [results[outcome].append(slug)] *)
Definition tally_append (t : tally) (o : outcome) (slug : string) : tally :=
  match o with
  | ok => Tally (t_ok t ++ [slug]) (t_skip t) (t_fail t)
  | skip => Tally (t_ok t) (t_skip t ++ [slug]) (t_fail t)
  | fail => Tally (t_ok t) (t_skip t) (t_fail t ++ [slug])
  end.

Definition FLASHPOINT_API : string := "https://db-api.unstable.life".
Definition WAYBACK_CDX : string := "https://web.archive.org/cdx/search/cdx".

(** [WAYBACK_RAW.format(timestamp=timestamp, url=url)] on texts. *)
Definition WAYBACK_RAW (timestamp url : string) : string :=
  "https://web.archive.org/web/" +:+ timestamp +:+ "oe_/" +:+ url.

Definition LOCAL_PREFIX : string := "http://localflash".

Definition GAMES : list string :=
  [ "14303_vrdefendery3k"; "1048_castle"; "adrenaline"; "alien-hominid";
    "alpha-bravo-charlie"; "archer"; "asteroids"; "avalanche";
    "bloons-tower-defense-3"; "bloons-tower-defense-4"; "bot-arena-2";
    "bowman"; "bow-master-prelude"; "bubble-tanks-2"; "bubble-tanks";
    "bubble-trouble"; "bunny-invasion-2"; "copter"; "cubefield";
    "curveball"; "crush-the-castle"; "d-fence-2"; "defend-your-castle";
    "demonic-defence-3"; "dolphin-olympics-2"; "double-wires";
    "fancy-pants-adventure-2"; "fancy-pants-adventure"; "feudalism-2";
    "fishy"; "gem-tower-defense"; "gravity-game"; "gunmaster-jungle";
    "helicopter"; "hot-air-baloons"; "interactive-buddy";
    "line-rider-beta-2"; "the-last-stand-2"; "manhattan-project";
    "madness-accelerant"; "max-dirtbike"; "me2d-game"; "missile-game-3d";
    "n-ninja"; "pet-protector-2"; "phage-wars"; "portal"; "raiden-x";
    "realm-of-the-mad-god"; "run"; "sonny-2"; "sonny"; "stairfall";
    "stick-strike"; "super-mario-flash"; "super-smash-flash"; "tanks";
    "trampoline" ].

(** ** Selecting a catalog record *)

(** [r.get("title", "").lower() == title_lower] *)
Definition title_is (lower : string -> string) (title_lower : string) (r : json)
  : result bool :=
  let? t := Py.get r "title" (JStr "") in
  let? tl := Py.lower lower t in
  Ok (String.eqb tl title_lower).

(** ["flash" in r.get("platform", "").lower()] *)
Definition on_flash (lower : string -> string) (r : json) : result bool :=
  let? p := Py.get r "platform" (JStr "") in
  let? pl := Py.lower lower p in
  Ok (Text.contains "flash" pl).

(** The test of the first loop; [and] does not evaluate its right operand
    when the left one is false. *)
Definition title_and_flash (lower : string -> string) (title_lower : string)
           (r : json) : result bool :=
  let? same := title_is lower title_lower r in
  if same then on_flash lower r else Ok false.

(** [for r in items: if test(r): return r] *)
Fixpoint first_where (test : json -> result bool) (items : list json)
  : result (option json) :=
  match items with
  | [] => Ok None
  | r :: rest =>
      let? hit := test r in
      if hit then Ok (Some r) else first_where test rest
  end.

(** The three loops and the final [results[0]] of [search_flashpoint];
    [lower] is [str.lower]. *)
Definition pick (lower : string -> string) (title : string) (results : json)
  : result json :=
  let title_lower := lower title in
  let? items := Py.iter results in
  let? m1 := first_where (title_and_flash lower title_lower) items in
  match m1 with
  | Some r => Ok r
  | None =>
      let? items := Py.iter results in
      let? m2 := first_where (title_is lower title_lower) items in
      match m2 with
      | Some r => Ok r
      | None =>
          let? items := Py.iter results in
          let? m3 := first_where (on_flash lower) items in
          match m3 with
          | Some r => Ok r
          | None => Py.index results 0
          end
      end
  end.

(** ** The script's functions *)

Section Script.

Context (rt : runtime).

(** [http_get(url, timeout)].  The request object is built before the
    [try]; every exception of [urlopen] and [read] gives [None]. *)
Definition http_get (url : string) (timeout : Z) : M (option bytes) :=
  fun w =>
    if url_type_known rt url then
      let rq := Request url timeout in
      (Ok (respond rt (sent w) rq), logged w rq)
    else (Raise ValueError, w).

Definition search_url (title : string) : string :=
  FLASHPOINT_API +:+ "/search?" +:+
  Url.urlencode [ ("title", title);
                  ("fields", "id,title,platform,launchCommand");
                  ("limit", "15") ].

(** [search_flashpoint(title)]: [None] or the selected record. *)
Definition search_flashpoint (title : string) : M (option json) :=
  let* data := http_get (search_url title) 20 in
  match data with
  | None => ret None
  | Some d =>
      if negb (Py.some_bytes data) then ret None
      else
        match json_loads rt d with
        | None => ret None
        | Some results =>
            if negb (Py.truthy results) then ret None
            else
              let* r := lift (pick (str_lower rt) title results) in
              ret (Some r)
        end
  end.

(** The guard [if not url or url.startswith("http://localflash"): return
    None] of [try_direct] and [try_wayback]: [None] when the guard returns,
    the URL when it lets it pass.  Only a [str] has [startswith]. *)
Definition usable_url (url : json) : result (option string) :=
  if negb (Py.truthy url) then Ok None
  else
    match url with
    | JStr s => if Text.startswith s LOCAL_PREFIX then Ok None else Ok (Some s)
    | _ => Raise AttributeError
    end.

Definition try_direct (url : json) : M (option bytes) :=
  let* usable := lift (usable_url url) in
  match usable with
  | None => ret None
  | Some u =>
      let* data := http_get u 15 in
      if is_valid_swf data then ret data else ret None
  end.

Definition cdx_url (url : string) : string :=
  WAYBACK_CDX +:+ "?" +:+
  Url.urlencode [ ("url", url);
                  ("output", "json");
                  ("limit", "1");
                  ("fl", "timestamp,statuscode");
                  ("filter", "statuscode:200") ].

(** [str(v)] as [str.format] inserts it. *)
Definition format_value (v : json) : string :=
  match v with
  | JStr s => s
  | _ => str_of rt v
  end.

Definition try_wayback (url : json) : M (option bytes) :=
  let* usable := lift (usable_url url) in
  match usable with
  | None => ret None
  | Some u =>
      let* cdx_data := http_get (cdx_url u) 20 in
      match cdx_data with
      | None => ret None
      | Some d =>
          if negb (Py.some_bytes cdx_data) then ret None
          else
            match json_loads rt d with
            | None => ret None
            | Some rows =>
                let* n := lift (Py.len rows) in
                if (n <? 2)%nat then ret None
                else
                  let* row := lift (Py.index rows 1) in
                  let* timestamp := lift (Py.index row 0) in
                  let raw_url := WAYBACK_RAW (format_value timestamp) u in
                  let* data := http_get raw_url 30 in
                  if is_valid_swf data then ret data else ret None
            end
      end
  end.

(** Steps 1 and 2 of [fetch_game]: the direct download, and the Wayback
    Machine [if not swf]. *)
Definition retrieve (launch_cmd : json) : M (option bytes) :=
  let* swf := try_direct launch_cmd in
  if negb (Py.some_bytes swf) then try_wayback launch_cmd else ret swf.

Definition GAMES_DIR : string :=
  os_path_join (os_path_join (script_dir rt) "..") "games".

Definition out_path (slug : string) : string :=
  os_path_join GAMES_DIR (slug +:+ ".swf").

(** [not match] for what [search_flashpoint] returns. *)
Definition no_match (m : option json) : bool :=
  match m with
  | None => true
  | Some r => negb (Py.truthy r)
  end.

(** [fetch_game(slug)].  The printed lines are left out; the values they
    read from the record are still looked up.  [os.makedirs] does nothing
    the model sees. *)
Definition fetch_game (slug : string) : M outcome :=
  let title := slug_to_title slug in
  let* present := path_exists (out_path slug) in
  if present then ret skip
  else
    let* found := search_flashpoint title in
    match found with
    | None => ret fail
    | Some record =>
        if no_match found then ret fail
        else
          let* found_title := lift (Py.get record "title" (JStr "?")) in
          let* platform := lift (Py.get record "platform" (JStr "?")) in
          let* launch_cmd := lift (Py.get record "launchCommand" (JStr "")) in
          let* swf := retrieve launch_cmd in
          match swf with
          | Some data =>
              if Py.some_bytes swf then
                let* _ := write_file (out_path slug) data in ret ok
              else ret fail
          | None => ret fail
          end
    end.

(** The [for] loop of [main] over the slugs still to visit. *)
Fixpoint main_loop (games : list string) (results : tally) : M tally :=
  match games with
  | [] => ret results
  | slug :: rest =>
      let* outcome := fetch_game slug in
      let results := tally_append results outcome slug in
      let* _ := (if bool_decide (outcome <> skip) then sleep else ret tt) in
      main_loop rest results
  end.

(** [main] over an identifier list; the value is the dict the summary is
    printed from. *)
Definition run (games : list string) : M tally :=
  main_loop games (Tally [] [] []).

Definition main : M tally := run GAMES.

End Script.

(** The three counts of the summary. *)
Definition counts (t : tally) : nat * nat * nat :=
  (length (t_ok t), length (t_skip t), length (t_fail t)).

(** ** The selection policy in the specification's words

    A catalog record is an object whose title and platform tag, when
    present, are texts.  The policy names four rules and takes the first
    record, in the returned order, of the first rule that has one. *)

Module Policy.

Definition text_or_absent (key : string) (fields : list (string * json)) : bool :=
  match Py.assoc key fields with
  | None => true
  | Some (JStr _) => true
  | Some _ => false
  end.

Definition is_record (r : json) : bool :=
  match r with
  | JObj fields => text_or_absent "title" fields && text_or_absent "platform" fields
  | _ => false
  end.

(** The text of a field, empty when the record has none. *)
Definition field_text (key : string) (r : json) : string :=
  match r with
  | JObj fields =>
      match Py.assoc key fields with
      | Some (JStr s) => s
      | _ => ""
      end
  | _ => ""
  end.

Section Rules.

(** The case folding, [str.lower] in the script. *)
Context (lower : string -> string).

(** Case-insensitive exact title match. *)
Definition same_title (term : string) (r : json) : bool :=
  String.eqb (lower (field_text "title" r)) (lower term).

(** The platform tag contains the family name, whatever its case. *)
Definition flash_platform (r : json) : bool :=
  Text.contains "flash" (lower (field_text "platform" r)).

Definition rule1 (term : string) (r : json) : bool :=
  same_title term r && flash_platform r.

Definition select (term : string) (records : list json) : option json :=
  match find (rule1 term) records with
  | Some r => Some r
  | None =>
      match find (same_title term) records with
      | Some r => Some r
      | None =>
          match find flash_platform records with
          | Some r => Some r
          | None => head records
          end
      end
  end.

(** [r] is the first record of [records] that satisfies [rule]. *)
Definition first_of (rule : json -> bool) (records : list json) (r : json) : Prop :=
  exists before after : list json,
    records = before ++ r :: after /\ rule r = true /\
    forall x : json, In x before -> rule x = false.

Definition none_of (rule : json -> bool) (records : list json) : Prop :=
  forall x : json, In x records -> rule x = false.

(** The four rules, first rule to match wins. *)
Definition selected (term : string) (records : list json) (r : json) : Prop :=
  first_of (rule1 term) records r \/
  (none_of (rule1 term) records /\ first_of (same_title term) records r) \/
  (none_of (rule1 term) records /\ none_of (same_title term) records /\
   first_of flash_platform records r) \/
  (none_of (rule1 term) records /\ none_of (same_title term) records /\
   none_of flash_platform records /\ head records = Some r).

End Rules.

End Policy.

(** ** Notions the properties are stated with *)

(** A computation that leaves the stored files and the pauses alone. *)
Definition keeps_store {A : Type} (m : M A) : Prop :=
  forall (w w' : world) (r : result A),
    m w = (r, w') -> files w' = files w /\ naps w' = naps w.

(** The world in which the loop of [main] goes on after an identifier
    with outcome [o]: one pause later unless the identifier was skipped. *)
Definition after_step (o : outcome) (w : world) : world :=
  if bool_decide (o <> skip) then paused w else w.

(** The identifiers of [games] that [outs] files under [o], in order. *)
Fixpoint assigned (o : outcome) (games : list string) (outs : list outcome)
  : list string :=
  match games, outs with
  | slug :: games', o' :: outs' =>
      if bool_decide (o' = o) then slug :: assigned o games' outs'
      else assigned o games' outs'
  | _, _ => []
  end.

(** The tally files every identifier of [games] under exactly one outcome
    and keeps the order of the list. *)
Definition partitions (t : tally) (games : list string) : Prop :=
  exists outs : list outcome,
    length outs = length games /\
    t_ok t = assigned ok games outs /\
    t_skip t = assigned skip games outs /\
    t_fail t = assigned fail games outs.

(** ** Notions the further properties are stated with *)

(** Every character of [s] passes [test]. *)
Fixpoint every_char (test : ascii -> bool) (s : string) : bool :=
  match s with
  | EmptyString => true
  | String c r => test c && every_char test r
  end.

(** The characters [quote_plus] writes: the unreserved ones, [+] for a
    space and [%] before two hexadecimal digits. *)
Definition is_query_char (c : ascii) : bool :=
  Url.always_safe c || Ascii.eqb c "+" || Ascii.eqb c "%".

(** The value of a hexadecimal digit in upper case. *)
Definition hex_value (c : ascii) : option nat :=
  let n := nat_of_ascii c in
  if Url.is_digit c then Some (n - 48)
  else if (65 <=? n)%nat && (n <=? 70)%nat then Some (n - 55)
  else None.

(** Reading the output of [quote_plus] back: [+] is a space, [%XX] the
    byte XX.  It serves to show that the encoding loses nothing; the script
    itself never decodes. *)
Fixpoint read_back (s : string) : option string :=
  match s with
  | EmptyString => Some EmptyString
  | String c r =>
      if Ascii.eqb c "%" then
        match r with
        | String h (String l r') =>
            match hex_value h, hex_value l, read_back r' with
            | Some x, Some y, Some t => Some (String (ascii_of_nat (16 * x + y)) t)
            | _, _, _ => None
            end
        | _ => None
        end
      else
        match read_back r with
        | Some t => Some (String (if Ascii.eqb c "+" then " "%char else c) t)
        | None => None
        end
  end.

(** The requests a world has seen since an earlier one. *)
Definition sent_since (w w' : world) (more : list request) : Prop :=
  sent w' = sent w ++ more.

(** ** Scenarios: concrete runtimes and worlds *)

Module Scenario.

Definition dq : string := String "034"%char EmptyString.

(** A JSON string literal of a text without escapes. *)
Definition quoted (s : string) : string := dq +:+ s +:+ dq.

(** The scheme test of [urllib.request.Request]: the URL starts with one or
    more characters other than [/] and [:], followed by [:]. *)
Fixpoint scheme_from (seen : bool) (u : string) : bool :=
  match u with
  | EmptyString => false
  | String c r =>
      if Ascii.eqb c ":" then seen
      else if Ascii.eqb c "/" then false
      else scheme_from true r
  end.

Definition has_scheme (u : string) : bool := scheme_from false u.

Fixpoint page_of (pages : list (string * bytes)) (url : string) : option bytes :=
  match pages with
  | [] => None
  | (u, body) :: rest => if String.eqb u url then Some body else page_of rest url
  end.

Fixpoint doc_of (docs : list (bytes * json)) (data : bytes) : option json :=
  match docs with
  | [] => None
  | (d, v) :: rest => if bool_decide (d = data) then Some v else doc_of rest data
  end.

(** A network that serves the listed pages (any other request fails) and a
    decoder that knows the listed documents.  The scenarios never format a
    value that is not a string, so [str_of] is left blank, and they hold
    ASCII text only, on which [str.lower] is [Text.lower]. *)
Definition serving (pages : list (string * bytes)) (docs : list (bytes * json))
  : runtime :=
  Runtime (fun _ rq => page_of pages (req_url rq)) (doc_of docs) has_scheme
          (fun _ => "") "scripts" Text.lower.

Definition empty_world : world := World ∅ [] 0.

Definition web_foo : json := JObj [("title", JStr "Foo"); ("platform", JStr "Web")].

Definition flash_foo : json :=
  JObj [("title", JStr "Foo"); ("platform", JStr "Flash Player")].

(** An SWF body: the signature and five more bytes. *)
Definition swf_body : bytes := bytes_of "FWS12345".

(** An HTML error page. *)
Definition html_body : bytes := bytes_of "<html>gone</html>".

(** The catalog's answer with one Flash record:
    [[{"title":T,"platform":"Flash","launchCommand":U}]]. *)
Definition catalog_text (title url : string) : string :=
  "[{" +:+ quoted "title" +:+ ":" +:+ quoted title +:+ "," +:+
  quoted "platform" +:+ ":" +:+ quoted "Flash" +:+ "," +:+
  quoted "launchCommand" +:+ ":" +:+ quoted url +:+ "}]".

Definition catalog_doc (title url : string) : json :=
  JArr [JObj [("title", JStr title); ("platform", JStr "Flash");
              ("launchCommand", JStr url)]].

(** The index's answer with one capture:
    [[["timestamp","statuscode"],[TS,"200"]]]. *)
Definition cdx_text (timestamp : string) : string :=
  "[[" +:+ quoted "timestamp" +:+ "," +:+ quoted "statuscode" +:+ "],[" +:+
  quoted timestamp +:+ "," +:+ quoted "200" +:+ "]]".

Definition cdx_doc (timestamp : string) : json :=
  JArr [JArr [JStr "timestamp"; JStr "statuscode"];
        JArr [JStr timestamp; JStr "200"]].

(** The catalog answers the term foo with the two records of the
    tie-break example:
    [[{"title":"Foo","platform":"Web"},{"title":"Foo","platform":"Flash Player"}]]. *)
Definition foo_text : string :=
  "[{" +:+ quoted "title" +:+ ":" +:+ quoted "Foo" +:+ "," +:+
  quoted "platform" +:+ ":" +:+ quoted "Web" +:+ "},{" +:+
  quoted "title" +:+ ":" +:+ quoted "Foo" +:+ "," +:+
  quoted "platform" +:+ ":" +:+ quoted "Flash Player" +:+ "}]".

Definition foo_catalog : runtime :=
  serving [(search_url "foo", bytes_of foo_text)]
          [(bytes_of foo_text, JArr [web_foo; flash_foo])].

(** Identifier y resolves to a URL that serves an SWF body. *)
Definition y_url : string := "http://host/y.swf".

Definition y_online : runtime :=
  serving [(search_url "Y", bytes_of (catalog_text "Y" y_url)); (y_url, swf_body)]
          [(bytes_of (catalog_text "Y" y_url), catalog_doc "Y" y_url)].

(** Storage that already holds the file of identifier x. *)
Definition x_stored : world :=
  World {[ out_path y_online "x" := swf_body ]} [] 0.

(** Identifier tanks resolves, but its URL and its one capture both serve
    an HTML page. *)
Definition tanks_url : string := "http://host/tanks.swf".

Definition tanks_stamp : string := "20100101000000".

Definition tanks_gone : runtime :=
  serving [(search_url "Tanks", bytes_of (catalog_text "Tanks" tanks_url));
           (tanks_url, html_body);
           (cdx_url tanks_url, bytes_of (cdx_text tanks_stamp));
           (WAYBACK_RAW tanks_stamp tanks_url, html_body)]
          [(bytes_of (catalog_text "Tanks" tanks_url), catalog_doc "Tanks" tanks_url);
           (bytes_of (cdx_text tanks_stamp), cdx_doc tanks_stamp)].

(** The catalog answers with an error object: [{"error":"Too many requests"}]. *)
Definition error_text : string :=
  "{" +:+ quoted "error" +:+ ":" +:+ quoted "Too many requests" +:+ "}".

Definition error_doc : json := JObj [("error", JStr "Too many requests")].

Definition catalog_error : runtime :=
  serving [(search_url "Tanks", bytes_of error_text)]
          [(bytes_of error_text, error_doc)].

(** The catalog answers with a list that holds no object: [[1]]. *)
Definition catalog_numbers : runtime :=
  serving [(search_url "Tanks", bytes_of "[1]")] [(bytes_of "[1]", JArr [JInt 1])].

(** The catalog answers with a number: [5]. *)
Definition catalog_number : runtime :=
  serving [(search_url "Tanks", bytes_of "5")] [(bytes_of "5", JInt 5)].

(** The index answers with a header and an empty second row:
    [[["timestamp","statuscode"],[]]]. *)
Definition empty_row_text : string :=
  "[[" +:+ quoted "timestamp" +:+ "," +:+ quoted "statuscode" +:+ "],[]]".

Definition empty_row_doc : json :=
  JArr [JArr [JStr "timestamp"; JStr "statuscode"]; JArr []].

Definition index_empty_row : runtime :=
  serving [(search_url "Tanks", bytes_of (catalog_text "Tanks" tanks_url));
           (tanks_url, html_body);
           (cdx_url tanks_url, bytes_of empty_row_text)]
          [(bytes_of (catalog_text "Tanks" tanks_url), catalog_doc "Tanks" tanks_url);
           (bytes_of empty_row_text, empty_row_doc)].

(** The index answers with an object of two members:
    [{"error":"blocked","status":"403"}]. *)
Definition index_error_text : string :=
  "{" +:+ quoted "error" +:+ ":" +:+ quoted "blocked" +:+ "," +:+
  quoted "status" +:+ ":" +:+ quoted "403" +:+ "}".

Definition index_error_doc : json :=
  JObj [("error", JStr "blocked"); ("status", JStr "403")].

Definition index_error : runtime :=
  serving [(cdx_url tanks_url, bytes_of index_error_text)]
          [(bytes_of index_error_text, index_error_doc)].

(** The catalog is silent on the first identifier of [GAMES] and answers
    the second one, 1048 Castle, with the error object. *)
Definition second_game_error : runtime :=
  serving [(search_url "1048 Castle", bytes_of error_text)]
          [(bytes_of error_text, error_doc)].

(** The index holds two captures of the launch URL of Tanks, both with
    status 200, and lists captures oldest first, as the Wayback CDX server
    does. *)
Definition tanks_captures : list string :=
  ["20090101000000"; "20150101000000"].

(** The later of two timestamps (14 digits each, so the order of the texts
    is the order in time). *)
Definition later (a x : string) : string :=
  if String.leb a x then x else a.

Definition most_recent (stamps : list string) : option string :=
  match stamps with
  | [] => None
  | first :: rest => Some (fold_left later rest first)
  end.

(** The index's answer to a query with [limit=n] and no ordering: the
    header and the first [n] captures it lists. *)
Definition index_rows (n : nat) : json :=
  JArr (JArr [JStr "timestamp"; JStr "statuscode"]
        :: map (fun ts => JArr [JStr ts; JStr "200"]) (take n tanks_captures)).

(** Both captures hold the SWF; the index answers the script's query. *)
Definition oldest_first : runtime :=
  serving [(cdx_url tanks_url, bytes_of (cdx_text "20090101000000"));
           (WAYBACK_RAW "20090101000000" tanks_url, swf_body);
           (WAYBACK_RAW "20150101000000" tanks_url, swf_body)]
          [(bytes_of (cdx_text "20090101000000"), index_rows 1)].

(** The capture whose raw content [try_wayback] asks for is the most
    recent one the index holds. *)
Definition fetches_most_recent (rt : runtime) (url : string)
           (captures : list string) : Prop :=
  exists ts : string,
    most_recent captures = Some ts /\
    In (Request (WAYBACK_RAW ts url) 30)
       (sent (snd (try_wayback rt (JStr url) empty_world))).

(** The catalog's record for Tanks has a launch command without a
    scheme, [games/tanks.swf]. *)
Definition relative_launch : runtime :=
  serving [(search_url "Tanks", bytes_of (catalog_text "Tanks" "games/tanks.swf"))]
          [(bytes_of (catalog_text "Tanks" "games/tanks.swf"),
            catalog_doc "Tanks" "games/tanks.swf")].

(** The catalog's record for Tanks has no launch command:
    [[{"title":"Tanks","platform":"Flash"}]]. *)
Definition bare_text : string :=
  "[{" +:+ quoted "title" +:+ ":" +:+ quoted "Tanks" +:+ "," +:+
  quoted "platform" +:+ ":" +:+ quoted "Flash" +:+ "}]".

Definition bare_record : json :=
  JObj [("title", JStr "Tanks"); ("platform", JStr "Flash")].

Definition no_launch : runtime :=
  serving [(search_url "Tanks", bytes_of bare_text)]
          [(bytes_of bare_text, JArr [bare_record])].

End Scenario.

(** * Properties *)

(** ** The model at concrete values *)

Example search_url_foo :
  search_url "foo"
  = "https://db-api.unstable.life/search?title=foo&fields=id%2Ctitle%2Cplatform%2ClaunchCommand&limit=15".
Proof. vm_compute. reflexivity. Qed.

Example search_url_blank : search_url "Bot Arena 2"
  = "https://db-api.unstable.life/search?title=Bot+Arena+2&fields=id%2Ctitle%2Cplatform%2ClaunchCommand&limit=15".
Proof. vm_compute. reflexivity. Qed.

Example out_path_from_root :
  out_path Scenario.y_online "x" = "scripts/../games/x.swf".
Proof. vm_compute. reflexivity. Qed.

Example lower_mixed : Text.lower "Flash Player 9" = "flash player 9".
Proof. vm_compute. reflexivity. Qed.

Example contains_flash :
  Text.contains "flash" "adobe flash player" = true /\
  Text.contains "flash" "shockwave" = false.
Proof. vm_compute. split; reflexivity. Qed.

Example scheme_examples :
  Scenario.has_scheme "http://host/y.swf" = true /\
  Scenario.has_scheme "games/y.swf" = false.
Proof. vm_compute. split; reflexivity. Qed.

(** ** The SWF signature check *)

Lemma has_swf_magic_spec (data : bytes) :
  has_swf_magic data = true <->
  take 3 data = bytes_of "FWS" \/ take 3 data = bytes_of "CWS" \/
  take 3 data = bytes_of "ZWS".
Proof.
  unfold has_swf_magic.
  rewrite !orb_true_iff, !bool_decide_eq_true. tauto.
Qed.

(** C3, as amended.  A buffer is valid exactly when it holds at least 8
    bytes and its first 3 bytes are one of the signatures FWS, CWS, ZWS; the
    missing buffer is invalid. *)
Theorem is_valid_swf_iff :
  is_valid_swf None = false /\
  forall data : bytes,
    is_valid_swf (Some data) = true <->
    (8 <= length data)%nat /\
    (take 3 data = bytes_of "FWS" \/ take 3 data = bytes_of "CWS" \/
     take 3 data = bytes_of "ZWS").
Proof.
  split; [reflexivity |].
  intros data. unfold is_valid_swf.
  destruct (Nat.ltb_spec (length data) 8) as [Hlt | Hge].
  - rewrite orb_true_r. split; [discriminate | intros [Hlen _]; lia].
  - rewrite orb_false_r.
    destruct (bool_decide_reflect (data = [])) as [-> | _].
    + simpl in Hge. lia.
    + rewrite has_swf_magic_spec. tauto.
Qed.

(** C3, as stated, fails: the 3-byte buffer FWS starts with a signature and
    is rejected for being shorter than 8 bytes. *)
Lemma is_valid_swf_short_signature :
  ~ (forall data : bytes,
       take 3 data = bytes_of "FWS" \/ take 3 data = bytes_of "CWS" \/
       take 3 data = bytes_of "ZWS" ->
       is_valid_swf (Some data) = true).
Proof.
  intros H. specialize (H (bytes_of "FWS")).
  assert (Hv : is_valid_swf (Some (bytes_of "FWS")) = false) by reflexivity.
  rewrite H in Hv; [discriminate | left; reflexivity].
Qed.

(** ** The identifier normalizer *)

Lemma title_from_app (p : bool) (x y : string) :
  Text.title_from p (x +:+ String " " y)
  = Text.title_from p x +:+ String " " (Text.title y).
Proof.
  revert p. induction x as [| c x IH]; intros p; simpl.
  - destruct p; reflexivity.
  - rewrite IH. reflexivity.
Qed.

Lemma replace_app (old new : ascii) (x y : string) :
  Text.replace old new (x +:+ y)
  = Text.replace old new x +:+ Text.replace old new y.
Proof. induction x as [| c x IH]; simpl; [| rewrite IH]; reflexivity. Qed.

(** The default transform works word by word: a hyphen or an underscore
    ends a word and becomes one space. *)
Lemma default_title_words (sep : ascii) (x y : string) :
  sep = "-"%char \/ sep = "_"%char ->
  default_title (x +:+ String sep y)
  = default_title x +:+ String " " (default_title y).
Proof.
  intros Hsep. unfold default_title.
  rewrite !replace_app. simpl.
  destruct Hsep as [-> | ->]; simpl; apply title_from_app.
Qed.

Lemma cased_not_separator (c : ascii) :
  Text.is_cased c = true ->
  Ascii.eqb c "-" = false /\ Ascii.eqb c "_" = false.
Proof.
  destruct c as [[] [] [] [] [] [] [] []]; vm_compute; auto; discriminate.
Qed.

Lemma replace_letters (s : string) :
  Text.all_cased s = true ->
  Text.replace "_" " " (Text.replace "-" " " s) = s.
Proof.
  induction s as [| c r IH]; simpl; [reflexivity |].
  rewrite andb_true_iff. intros [Hc Hr].
  destruct (cased_not_separator c Hc) as [H1 H2].
  rewrite H1, H2, (IH Hr). reflexivity.
Qed.

Lemma title_from_letters (s : string) :
  Text.all_cased s = true -> Text.title_from true s = Text.lower s.
Proof.
  induction s as [| c r IH]; simpl; [reflexivity |].
  rewrite andb_true_iff. intros [Hc Hr]. rewrite Hc, (IH Hr). reflexivity.
Qed.

(** A word of letters gets its first letter in upper case and the others in
    lower case. *)
Lemma default_title_letters (c : ascii) (r : string) :
  Text.all_cased (String c r) = true ->
  default_title (String c r) = String (Text.to_upper c) (Text.lower r).
Proof.
  intros H. unfold default_title. rewrite (replace_letters _ H).
  simpl in H. apply andb_true_iff in H. destruct H as [Hc Hr].
  unfold Text.title. simpl. rewrite Hc, (title_from_letters r Hr). reflexivity.
Qed.

(** C9.  An identifier of the override table is mapped to the table's
    value; any other one to the default transform, which replaces hyphens
    and underscores by spaces and applies [title()]: the separators split
    the identifier into words, and a word of letters gets an upper-case
    first letter and lower-case other letters.  "bot-arena-2" gives
    "Bot Arena 2", through the table and through the default transform
    alike. *)
Theorem slug_to_title_spec :
  (forall slug v : string,
      TITLE_OVERRIDES !! slug = Some v -> slug_to_title slug = v) /\
  (forall slug : string,
      TITLE_OVERRIDES !! slug = None ->
      slug_to_title slug
      = Text.title (Text.replace "_" " " (Text.replace "-" " " slug))) /\
  (forall (sep : ascii) (x y : string),
      sep = "-"%char \/ sep = "_"%char ->
      default_title (x +:+ String sep y)
      = default_title x +:+ String " " (default_title y)) /\
  (forall (c : ascii) (r : string),
      Text.all_cased (String c r) = true ->
      default_title (String c r) = String (Text.to_upper c) (Text.lower r)) /\
  slug_to_title "bot-arena-2" = "Bot Arena 2" /\
  default_title "bot-arena-2" = "Bot Arena 2".
Proof.
  split; [| split; [| split; [| split; [| split]]]].
  - intros slug v H. unfold slug_to_title. rewrite H. reflexivity.
  - intros slug H. unfold slug_to_title. rewrite H. reflexivity.
  - apply default_title_words.
  - apply default_title_letters.
  - vm_compute. reflexivity.
  - vm_compute. reflexivity.
Qed.

Lemma slug_to_title_spec_witness :
  slug_to_title "copter" = "Helicopter Game" /\
  slug_to_title "alpha-bravo-charlie" = "Alpha Bravo Charlie" /\
  default_title ("feudalism" +:+ String "-" "2")
  = default_title "feudalism" +:+ String " " (default_title "2") /\
  default_title "tANKS" = "Tanks".
Proof.
  destruct slug_to_title_spec as (Hover & Hdefault & Hwords & Hletters & _).
  split; [| split; [| split]].
  - apply Hover. vm_compute. reflexivity.
  - rewrite Hdefault; vm_compute; reflexivity.
  - apply Hwords. left. reflexivity.
  - apply (Hletters "t"%char "ANKS"). reflexivity.
Defined.

(** [title()] starts a new word after every character that is not a
    letter, a digit included. *)
Example default_title_digit : default_title "me2d-game" = "Me2D Game".
Proof. vm_compute. reflexivity. Qed.

Example default_title_numeric_prefix :
  default_title "14303_vrdefendery3k" = "14303 Vrdefendery3K".
Proof. vm_compute. reflexivity. Qed.

(** The identifiers of [GAMES] are ASCII text, the domain on which
    [Text.title] is [str.title()]. *)
Example GAMES_ascii : forallb Text.is_ascii GAMES = true.
Proof. vm_compute. reflexivity. Qed.

(** The table has its 39 entries: no key is written twice. *)
Example TITLE_OVERRIDES_size : size TITLE_OVERRIDES = 39.
Proof. vm_compute. reflexivity. Qed.

(** ** The metadata resolver *)

Lemma find_first_of (rule : json -> bool) (records : list json) (r : json) :
  find rule records = Some r -> Policy.first_of rule records r.
Proof.
  induction records as [| x l IH]; simpl; [discriminate |].
  destruct (rule x) eqn:Hx.
  - intros [= ->]. exists [], l. simpl. split; [reflexivity | split; [exact Hx |]].
    intros y [].
  - intros H. destruct (IH H) as (before & after & -> & Hr & Hb).
    exists (x :: before), after. split; [reflexivity | split; [exact Hr |]].
    intros y [<- | Hy]; [exact Hx | apply Hb, Hy].
Qed.

Lemma find_none_of (rule : json -> bool) (records : list json) :
  find rule records = None -> Policy.none_of rule records.
Proof. intros H x Hx. apply (find_none rule records H x Hx). Qed.

Lemma select_selected (lower : string -> string) (term : string)
      (records : list json) (r : json) :
  Policy.select lower term records = Some r ->
  Policy.selected lower term records r.
Proof.
  unfold Policy.select, Policy.selected.
  destruct (find (Policy.rule1 lower term) records) eqn:H1.
  { intros [= ->]. left. apply find_first_of, H1. }
  apply find_none_of in H1.
  destruct (find (Policy.same_title lower term) records) eqn:H2.
  { intros [= ->]. right; left. split; [exact H1 | apply find_first_of, H2]. }
  apply find_none_of in H2.
  destruct (find (Policy.flash_platform lower) records) eqn:H3.
  { intros [= ->]. right; right; left.
    split; [exact H1 | split; [exact H2 | apply find_first_of, H3]]. }
  apply find_none_of in H3.
  intros H. right; right; right. auto.
Qed.

Lemma title_is_record (lower : string -> string) (term : string) (r : json) :
  Policy.is_record r = true ->
  title_is lower (lower term) r = Ok (Policy.same_title lower term r).
Proof.
  destruct r as [| | | | | | fields]; try discriminate. simpl.
  unfold Policy.text_or_absent, title_is, Policy.same_title. simpl.
  destruct (Py.assoc "title" fields) as [[| | | | t | |] |]; simpl;
    try discriminate; reflexivity.
Qed.

Lemma on_flash_record (lower : string -> string) (r : json) :
  Policy.is_record r = true ->
  on_flash lower r = Ok (Policy.flash_platform lower r).
Proof.
  destruct r as [| | | | | | fields]; try discriminate. simpl.
  unfold Policy.text_or_absent, on_flash, Policy.flash_platform. simpl.
  rewrite andb_true_iff. intros [_ H]. revert H.
  destruct (Py.assoc "platform" fields) as [[| | | | t | |] |]; simpl;
    try discriminate; reflexivity.
Qed.

Lemma title_and_flash_record (lower : string -> string) (term : string)
      (r : json) :
  Policy.is_record r = true ->
  title_and_flash lower (lower term) r = Ok (Policy.rule1 lower term r).
Proof.
  intros H. unfold title_and_flash, Policy.rule1.
  rewrite (title_is_record lower term r H). simpl.
  destruct (Policy.same_title lower term r);
    [apply on_flash_record, H | reflexivity].
Qed.

Lemma first_where_find (test : json -> result bool) (rule : json -> bool)
      (items : list json) :
  (forall r : json, In r items -> test r = Ok (rule r)) ->
  first_where test items = Ok (find rule items).
Proof.
  induction items as [| x l IH]; intros H; simpl; [reflexivity |].
  rewrite (H x (or_introl eq_refl)). simpl.
  destruct (rule x); [reflexivity |].
  apply IH. intros r Hr. apply H. right. exact Hr.
Qed.

(** On a non-empty list of catalog records the three loops and the final
    [results[0]] compute the policy. *)
Lemma pick_select (lower : string -> string) (term : string)
      (records : list json) :
  records <> [] ->
  (forall r : json, In r records -> Policy.is_record r = true) ->
  exists r : json,
    pick lower term (JArr records) = Ok r /\
    Policy.select lower term records = Some r.
Proof.
  intros Hne Hrec. unfold pick, Policy.select. simpl.
  rewrite (first_where_find _ (Policy.rule1 lower term));
    [| intros r Hr; apply title_and_flash_record, Hrec, Hr].
  simpl. destruct (find (Policy.rule1 lower term) records) as [r1 |]; [eauto |].
  rewrite (first_where_find _ (Policy.same_title lower term));
    [| intros r Hr; apply title_is_record, Hrec, Hr].
  simpl.
  destruct (find (Policy.same_title lower term) records) as [r2 |]; [eauto |].
  rewrite (first_where_find _ (Policy.flash_platform lower));
    [| intros r Hr; apply on_flash_record, Hrec, Hr].
  simpl.
  destruct (find (Policy.flash_platform lower) records) as [r3 |]; [eauto |].
  destruct records as [| r0 l]; [congruence |]. simpl. eauto.
Qed.

(** On ASCII text the tests of the loops are those of [Text.lower]. *)
Lemma tests_on_ascii (lower : string -> string) (title platform term : string) :
  ascii_faithful lower ->
  Text.is_ascii title = true -> Text.is_ascii platform = true ->
  Text.is_ascii term = true ->
  let r := JObj [("title", JStr title); ("platform", JStr platform)] in
  title_is lower (lower term) r = title_is Text.lower (Text.lower term) r /\
  on_flash lower r = on_flash Text.lower r /\
  title_and_flash lower (lower term) r
  = title_and_flash Text.lower (Text.lower term) r.
Proof.
  intros H Ht Hp Hterm r.
  assert (H1 : title_is lower (lower term) r
               = title_is Text.lower (Text.lower term) r).
  { unfold title_is, r. simpl. rewrite (H _ Ht), (H _ Hterm). reflexivity. }
  assert (H2 : on_flash lower r = on_flash Text.lower r).
  { unfold on_flash, r. simpl. rewrite (H _ Hp). reflexivity. }
  split; [exact H1 | split; [exact H2 |]].
  unfold title_and_flash. rewrite H1, H2. reflexivity.
Qed.

Section Resolver.

Context (rt : runtime).

(** C1.  When the query returns a non-empty list of catalog records,
    [search_flashpoint] returns the record the policy selects, with
    [str.lower] as the case folding on both sides: the first record with
    the exact title (whatever the case) on a Flash platform; failing that
    the first with the exact title; failing that the first on a Flash
    platform; failing that the first record.  With the records Foo/Web and
    Foo/Flash Player and the term foo, the second is selected, whatever
    [str.lower] does outside ASCII. *)
Theorem search_flashpoint_selects :
  (forall (title : string) (records : list json) (d : bytes) (w w1 : world),
      http_get rt (search_url title) 20 w = (Ok (Some d), w1) ->
      d <> [] ->
      json_loads rt d = Some (JArr records) ->
      records <> [] ->
      (forall r : json, In r records -> Policy.is_record r = true) ->
      exists r : json,
        search_flashpoint rt title w = (Ok (Some r), w1) /\
        Policy.select (str_lower rt) title records = Some r /\
        Policy.selected (str_lower rt) title records r) /\
  (forall lower : string -> string,
      ascii_faithful lower ->
      pick lower "foo" (JArr [Scenario.web_foo; Scenario.flash_foo])
      = Ok Scenario.flash_foo).
Proof.
  split.
  2: { intros lower H. unfold pick, Scenario.web_foo, Scenario.flash_foo.
       change (Py.iter (JArr ?l)) with (Ok l). cbn [rbind first_where].
       destruct (tests_on_ascii lower "Foo" "Web" "foo" H eq_refl eq_refl eq_refl)
         as (_ & _ & ->).
       destruct (tests_on_ascii lower "Foo" "Flash Player" "foo" H
                                eq_refl eq_refl eq_refl) as (_ & _ & ->).
       reflexivity. }
  intros title records d w w1 Hget Hd Hjson Hne Hrec.
  destruct (pick_select (str_lower rt) title records Hne Hrec)
    as (r & Hpick & Hsel).
  exists r. split; [| split; [exact Hsel | apply select_selected, Hsel]].
  unfold search_flashpoint, bind. rewrite Hget.
  destruct d as [| x d']; [congruence |]. simpl.
  rewrite Hjson. simpl.
  destruct records as [| r0 l]; [congruence |].
  unfold lift. rewrite Hpick. reflexivity.
Qed.

End Resolver.

(** ** The retrieval strategy *)

Lemma valid_is_some (data : option bytes) :
  is_valid_swf data = true -> Py.some_bytes data = true.
Proof.
  destruct data as [[| x d] |]; simpl; [discriminate | reflexivity | discriminate].
Qed.

Lemma usable_url_text (u : string) :
  u <> "" -> Text.startswith u LOCAL_PREFIX = false ->
  usable_url (JStr u) = Ok (Some u).
Proof.
  intros Hne Hpre. unfold usable_url. simpl.
  destruct (String.eqb_spec u ""); [congruence |]. simpl.
  rewrite Hpre. reflexivity.
Qed.

Section Retrieval.

Context (rt : runtime).

(** C4.  A launch URL that is empty or missing (any false value) or that
    starts with http://localflash makes the direct step, the archive step
    and their sequence return [None] in the world they started in: no
    request is sent. *)
Theorem dead_url_short_circuit (url : json) (w : world) :
  Py.truthy url = false \/
  (exists s : string, url = JStr s /\ Text.startswith s LOCAL_PREFIX = true) ->
  try_direct rt url w = (Ok None, w) /\
  try_wayback rt url w = (Ok None, w) /\
  retrieve rt url w = (Ok None, w).
Proof.
  intros H.
  assert (Hu : usable_url url = Ok None).
  { unfold usable_url. destruct H as [-> | (s & -> & Hs)]; [reflexivity |].
    rewrite Hs. destruct (negb (Py.truthy (JStr s))); reflexivity. }
  assert (Hd : try_direct rt url w = (Ok None, w)).
  { unfold try_direct, bind, lift. rewrite Hu. reflexivity. }
  assert (Hw : try_wayback rt url w = (Ok None, w)).
  { unfold try_wayback, bind, lift. rewrite Hu. reflexivity. }
  split; [exact Hd | split; [exact Hw |]].
  unfold retrieve, bind. rewrite Hd. simpl. exact Hw.
Qed.

(** C2, as amended.  The archive step runs only when the direct step gave
    nothing.  It asks the index for the URL with output=json, limit=1,
    fl=timestamp,statuscode and filter=statuscode:200, and for no ordering;
    with fewer than two rows in the answer it returns [None] after that
    one request; otherwise it takes the first row listed after the header,
    whichever capture that is and whatever follows it, and requests
    https://web.archive.org/web/<timestamp>oe_/<URL> for that row's
    timestamp, with a timeout of 30 seconds where the direct step allows
    15, and returns the body only when [is_valid_swf] accepts it. *)
Theorem archive_fallback :
  (forall (url : json) (w w1 : world) (data : bytes),
      try_direct rt url w = (Ok (Some data), w1) ->
      is_valid_swf (Some data) = true /\
      retrieve rt url w = (Ok (Some data), w1)) /\
  (forall (url : json) (w w1 : world),
      try_direct rt url w = (Ok None, w1) ->
      retrieve rt url w = try_wayback rt url w1) /\
  (forall u : string,
      cdx_url u
      = "https://web.archive.org/cdx/search/cdx?url=" +:+ Url.quote_plus u +:+
        "&output=json&limit=1&fl=timestamp%2Cstatuscode&filter=statuscode%3A200") /\
  (forall (u : string) (w : world),
      u <> "" -> Text.startswith u LOCAL_PREFIX = false ->
      url_type_known rt u = true ->
      let body := respond rt (sent w) (Request u 15) in
      try_direct rt (JStr u) w
      = (Ok (if is_valid_swf body then body else None), logged w (Request u 15))) /\
  (forall (u : string) (w : world) (d : bytes) (rows : list json),
      u <> "" -> Text.startswith u LOCAL_PREFIX = false ->
      url_type_known rt (cdx_url u) = true ->
      respond rt (sent w) (Request (cdx_url u) 20) = Some d ->
      d <> [] ->
      json_loads rt d = Some (JArr rows) ->
      (length rows < 2)%nat ->
      try_wayback rt (JStr u) w = (Ok None, logged w (Request (cdx_url u) 20))) /\
  (forall (u : string) (w : world) (d : bytes) (header : json) (ts : string)
          (columns more : list json),
      u <> "" -> Text.startswith u LOCAL_PREFIX = false ->
      url_type_known rt (cdx_url u) = true ->
      respond rt (sent w) (Request (cdx_url u) 20) = Some d ->
      d <> [] ->
      json_loads rt d = Some (JArr (header :: JArr (JStr ts :: columns) :: more)) ->
      url_type_known rt (WAYBACK_RAW ts u) = true ->
      let w1 := logged w (Request (cdx_url u) 20) in
      let raw := Request (WAYBACK_RAW ts u) 30 in
      let body := respond rt (sent w1) raw in
      try_wayback rt (JStr u) w
      = (Ok (if is_valid_swf body then body else None), logged w1 raw)) /\
  (forall ts u : string,
      WAYBACK_RAW ts u = "https://web.archive.org/web/" +:+ ts +:+ "oe_/" +:+ u).
Proof.
  split; [| split; [| split; [| split; [| split; [| split]]]]].
  7: { intros ts u. reflexivity. }
  - intros url w w1 data H.
    assert (Hv : is_valid_swf (Some data) = true).
    { revert H. unfold try_direct, bind, lift.
      destruct (usable_url url) as [[u |] | e];
        [| intros [= ] | intros [= ]].
      unfold http_get, ret. destruct (url_type_known rt u); [| intros [= ]].
      destruct (is_valid_swf (respond rt (sent w) (Request u 15))) eqn:Hv;
        intros [= Hd Hw].
      rewrite Hd in Hv. exact Hv. }
    split; [exact Hv |].
    unfold retrieve, bind. rewrite H.
    rewrite (valid_is_some _ Hv). reflexivity.
  - intros url w w1 H. unfold retrieve, bind. rewrite H. reflexivity.
  - intros u. reflexivity.
  - intros u w Hne Hpre Hok body.
    unfold try_direct, bind, lift. rewrite (usable_url_text u Hne Hpre). simpl.
    unfold http_get. rewrite Hok. fold body.
    destruct (is_valid_swf body); reflexivity.
  - intros u w d rows Hne Hpre Hok Hresp Hd Hjson Hlen.
    unfold try_wayback, bind, lift. rewrite (usable_url_text u Hne Hpre). simpl.
    unfold http_get. rewrite Hok, Hresp.
    destruct d as [| x d']; [congruence |]. simpl.
    rewrite Hjson. simpl.
    destruct (Nat.ltb_spec (length rows) 2); [reflexivity | lia].
  - intros u w d header ts columns more Hne Hpre Hok Hresp Hd Hjson Hraw w1 raw body.
    unfold try_wayback, bind, lift. rewrite (usable_url_text u Hne Hpre). simpl.
    unfold http_get at 1. rewrite Hok, Hresp.
    destruct d as [| x d']; [congruence |]. simpl.
    rewrite Hjson. simpl.
    unfold http_get. rewrite Hraw. fold w1 raw body.
    destruct (is_valid_swf body); reflexivity.
Qed.

End Retrieval.

(** C2, as stated, fails.  The index holds two captures of the URL, of
    2009 and of 2015, and lists the older first; its answer to the script's
    query, which has limit=1 and asks for no ordering, is the header and
    the capture of 2009.  [try_wayback] asks for the raw content of that
    capture and never for the one of 2015, the most recent. *)
Lemma try_wayback_not_most_recent :
  Scenario.index_rows 1 = Scenario.cdx_doc "20090101000000" /\
  Scenario.most_recent Scenario.tanks_captures = Some "20150101000000" /\
  ~ Scenario.fetches_most_recent Scenario.oldest_first Scenario.tanks_url
                                 Scenario.tanks_captures.
Proof.
  split; [reflexivity | split; [reflexivity |]].
  intros (ts & Hm & Hin).
  assert (Hts : ts = "20150101000000").
  { vm_compute in Hm. injection Hm as <-. reflexivity. }
  subst ts. vm_compute in Hin.
  destruct Hin as [H | [H | []]]; discriminate H.
Qed.

(** ** What the steps leave alone *)

Lemma keeps_ret {A : Type} (a : A) : keeps_store (ret a).
Proof. intros w w' r [= <- <-]. split; reflexivity. Qed.

Lemma keeps_throw {A : Type} (e : exn) : keeps_store (@throw A e).
Proof. intros w w' r [= <- <-]. split; reflexivity. Qed.

Lemma keeps_lift {A : Type} (x : result A) : keeps_store (lift x).
Proof. destruct x; [apply keeps_ret | apply keeps_throw]. Qed.

Lemma keeps_bind {A B : Type} (m : M A) (k : A -> M B) :
  keeps_store m -> (forall a : A, keeps_store (k a)) -> keeps_store (bind m k).
Proof.
  intros Hm Hk w w' r. unfold bind.
  destruct (m w) as [[a | e] w1] eqn:E; destruct (Hm _ _ _ E) as [Hf Hn].
  - intros H. destruct (Hk a _ _ _ H) as [Hf' Hn']. split; congruence.
  - intros [= <- <-]. split; assumption.
Qed.

Create HintDb keeps.

#[local] Hint Resolve keeps_ret keeps_throw keeps_lift : keeps.

Section Frame.

Context (rt : runtime).

Lemma keeps_http_get (url : string) (timeout : Z) :
  keeps_store (http_get rt url timeout).
Proof.
  intros w w' r. unfold http_get.
  destruct (url_type_known rt url); intros [= <- <-]; split; reflexivity.
Qed.

Lemma keeps_search_flashpoint (title : string) :
  keeps_store (search_flashpoint rt title).
Proof.
  unfold search_flashpoint. apply keeps_bind; [apply keeps_http_get |].
  intros [d |]; [| auto with keeps].
  destruct (negb (Py.some_bytes (Some d))); [auto with keeps |].
  destruct (json_loads rt d) as [results |]; [| auto with keeps].
  destruct (negb (Py.truthy results)); [auto with keeps |].
  apply keeps_bind; auto with keeps.
Qed.

Lemma keeps_try_direct (url : json) : keeps_store (try_direct rt url).
Proof.
  unfold try_direct. apply keeps_bind; [auto with keeps |].
  intros [u |]; [| auto with keeps].
  apply keeps_bind; [apply keeps_http_get |].
  intros data. destruct (is_valid_swf data); auto with keeps.
Qed.

Lemma keeps_try_wayback (url : json) : keeps_store (try_wayback rt url).
Proof.
  unfold try_wayback. apply keeps_bind; [auto with keeps |].
  intros [u |]; [| auto with keeps].
  apply keeps_bind; [apply keeps_http_get |].
  intros [d |]; [| auto with keeps].
  destruct (negb (Py.some_bytes (Some d))); [auto with keeps |].
  destruct (json_loads rt d) as [rows |]; [| auto with keeps].
  apply keeps_bind; [auto with keeps |]. intros n.
  destruct (n <? 2)%nat; [auto with keeps |].
  apply keeps_bind; [auto with keeps |]. intros row.
  apply keeps_bind; [auto with keeps |]. intros timestamp.
  apply keeps_bind; [apply keeps_http_get |].
  intros data. destruct (is_valid_swf data); auto with keeps.
Qed.

Lemma keeps_retrieve (url : json) : keeps_store (retrieve rt url).
Proof.
  unfold retrieve. apply keeps_bind; [apply keeps_try_direct |].
  intros swf. destruct (negb (Py.some_bytes swf));
    [apply keeps_try_wayback | auto with keeps].
Qed.

Lemma try_direct_valid (url : json) (w w' : world) (data : bytes) :
  try_direct rt url w = (Ok (Some data), w') -> is_valid_swf (Some data) = true.
Proof.
  unfold try_direct, bind, lift.
  destruct (usable_url url) as [[u |] | e]; [| intros [= ] | intros [= ]].
  unfold ret at 1. destruct (http_get rt u 15 w) as [[body | e] w1]; [| intros [= ]].
  destruct (is_valid_swf body) eqn:Hv; intros [= Hd Hw].
  rewrite Hd in Hv. exact Hv.
Qed.

Lemma try_wayback_valid (url : json) (w w' : world) (data : bytes) :
  try_wayback rt url w = (Ok (Some data), w') -> is_valid_swf (Some data) = true.
Proof.
  unfold try_wayback, bind, lift.
  destruct (usable_url url) as [[u |] | e]; [| intros [= ] | intros [= ]].
  unfold ret at 1.
  destruct (http_get rt (cdx_url u) 20 w) as [[[d |] | e] w1];
    [| intros [= ] | intros [= ]].
  destruct (negb (Py.some_bytes (Some d))); [intros [= ] |].
  destruct (json_loads rt d) as [rows |]; [| intros [= ]].
  destruct (Py.len rows) as [n | e]; [| intros [= ]]. unfold ret at 1.
  destruct (n <? 2)%nat; [intros [= ] |].
  destruct (Py.index rows 1) as [row | e]; [| intros [= ]]. unfold ret at 1.
  destruct (Py.index row 0) as [timestamp | e]; [| intros [= ]]. unfold ret at 1.
  destruct (http_get rt _ 30 w1) as [[body | e] w2]; [| intros [= ]].
  destruct (is_valid_swf body) eqn:Hv; intros [= Hd Hw].
  rewrite Hd in Hv. exact Hv.
Qed.

Lemma retrieve_valid (url : json) (w w' : world) (data : bytes) :
  retrieve rt url w = (Ok (Some data), w') -> is_valid_swf (Some data) = true.
Proof.
  unfold retrieve, bind.
  destruct (try_direct rt url w) as [[swf | e] w1] eqn:Hd; [| intros [= ]].
  destruct (negb (Py.some_bytes swf)).
  - apply try_wayback_valid.
  - intros [= -> <-]. apply (try_direct_valid _ _ _ _ Hd).
Qed.

End Frame.

(** ** One identifier *)

Section Orchestrator.

Context (rt : runtime).

(** The three ways [fetch_game] ends. *)
Lemma fetch_game_cases (slug : string) (w w' : world) (r : result outcome) :
  fetch_game rt slug w = (r, w') ->
  (r = Ok skip /\ w' = w /\ is_Some (files w !! out_path rt slug)) \/
  (r = Ok ok /\ files w !! out_path rt slug = None /\ naps w' = naps w /\
   exists data : bytes,
     is_valid_swf (Some data) = true /\
     files w' = <[out_path rt slug := data]> (files w)) \/
  (r <> Ok skip /\ r <> Ok ok /\ files w !! out_path rt slug = None /\
   files w' = files w /\ naps w' = naps w).
Proof.
  unfold fetch_game. unfold bind at 1. unfold path_exists.
  destruct (bool_decide_reflect (is_Some (files w !! out_path rt slug))) as [Hin | Hout].
  { intros [= <- <-]. left. auto. }
  assert (Hnone : files w !! out_path rt slug = None).
  { destruct (files w !! out_path rt slug) eqn:E; [| reflexivity].
    exfalso. apply Hout. eauto. }
  intros H. right.
  assert (Hquiet : forall (w1 w2 : world) (o : result outcome),
             files w1 = files w -> naps w1 = naps w ->
             o <> Ok skip -> o <> Ok ok -> (o, w1) = (r, w') ->
             r <> Ok skip /\ r <> Ok ok /\ files w !! out_path rt slug = None /\
             files w' = files w /\ naps w' = naps w).
  { intros w1 w2 o Hf Hn Hs Ho [= <- <-]. auto. }
  revert H. unfold bind at 1.
  destruct (search_flashpoint rt (slug_to_title slug) w) as [[found | e] w1] eqn:Hs;
    destruct (keeps_search_flashpoint rt _ _ _ _ Hs) as [Hf1 Hn1];
    [| intros H; right; apply (Hquiet w1 w1 _ Hf1 Hn1) in H; [exact H | |]; discriminate].
  destruct found as [record |];
    [| intros H; right; apply (Hquiet w1 w1 _ Hf1 Hn1) in H; [exact H | |]; discriminate].
  destruct (no_match (Some record));
    [intros H; right; apply (Hquiet w1 w1 _ Hf1 Hn1) in H; [exact H | |]; discriminate |].
  unfold bind at 1, lift at 1.
  destruct (Py.get record "title" (JStr "?")) as [found_title | e];
    [| intros H; right; apply (Hquiet w1 w1 _ Hf1 Hn1) in H; [exact H | |]; discriminate].
  unfold ret at 1, bind at 1, lift at 1.
  destruct (Py.get record "platform" (JStr "?")) as [platform | e];
    [| intros H; right; apply (Hquiet w1 w1 _ Hf1 Hn1) in H; [exact H | |]; discriminate].
  unfold ret at 1, bind at 1, lift at 1.
  destruct (Py.get record "launchCommand" (JStr "")) as [launch_cmd | e];
    [| intros H; right; apply (Hquiet w1 w1 _ Hf1 Hn1) in H; [exact H | |]; discriminate].
  unfold ret at 1, bind at 1.
  destruct (retrieve rt launch_cmd w1) as [[swf | e] w2] eqn:Hr;
    destruct (keeps_retrieve rt _ _ _ _ Hr) as [Hf2 Hn2];
    assert (Hf : files w2 = files w) by congruence;
    assert (Hn : naps w2 = naps w) by congruence;
    [| intros H; right; apply (Hquiet w2 w2 _ Hf Hn) in H; [exact H | |]; discriminate].
  destruct swf as [data |];
    [| intros H; right; apply (Hquiet w2 w2 _ Hf Hn) in H; [exact H | |]; discriminate].
  destruct (Py.some_bytes (Some data));
    [| intros H; right; apply (Hquiet w2 w2 _ Hf Hn) in H; [exact H | |]; discriminate].
  unfold bind, write_file, ret. intros [= <- <-]. left.
  split; [reflexivity | split; [exact Hnone | split; [exact Hn |]]].
  exists data. split; [apply (retrieve_valid rt _ _ _ _ Hr) |].
  simpl. rewrite Hf. reflexivity.
Qed.

(** ** The loop *)

Lemma main_loop_step (slug : string) (rest : list string) (t : tally) (w : world) :
  main_loop rt (slug :: rest) t w
  = match fetch_game rt slug w with
    | (Ok o, w1) => main_loop rt rest (tally_append t o slug) (after_step o w1)
    | (Raise e, w1) => (Raise e, w1)
    end.
Proof.
  simpl. unfold bind at 1.
  destruct (fetch_game rt slug w) as [[o | e] w1]; [| reflexivity].
  unfold bind, after_step. destruct (bool_decide (o <> skip)); reflexivity.
Qed.

Lemma main_loop_app (pre suf : list string) (t : tally) (w : world) :
  main_loop rt (pre ++ suf) t w
  = match main_loop rt pre t w with
    | (Ok t1, w1) => main_loop rt suf t1 w1
    | (Raise e, w1) => (Raise e, w1)
    end.
Proof.
  revert t w. induction pre as [| slug pre IH]; intros t w; [reflexivity |].
  rewrite <- app_comm_cons, !main_loop_step.
  destruct (fetch_game rt slug w) as [[o | e] w1]; [apply IH | reflexivity].
Qed.

Lemma after_step_files (o : outcome) (w : world) :
  files (after_step o w) = files w.
Proof. unfold after_step. destruct (bool_decide (o <> skip)); reflexivity. Qed.

(** A file the loop leaves behind was there before or holds a valid body;
    a file that is there stays. *)
Lemma main_loop_files (games : list string) (t : tally) (w w' : world)
      (r : result tally) :
  main_loop rt games t w = (r, w') ->
  (forall (path : string) (data : bytes),
      files w' !! path = Some data ->
      files w !! path = Some data \/ is_valid_swf (Some data) = true) /\
  (forall path : string,
      is_Some (files w !! path) -> is_Some (files w' !! path)).
Proof.
  revert t w. induction games as [| slug rest IH]; intros t w.
  - intros [= <- <-]. auto.
  - rewrite main_loop_step.
    destruct (fetch_game rt slug w) as [[o | e] w1] eqn:Hf.
    + intros H. destruct (IH _ _ H) as [IH1 IH2].
      rewrite after_step_files in IH1, IH2.
      destruct (fetch_game_cases _ _ _ _ Hf)
        as [(_ & -> & _) | [(_ & _ & _ & data & Hv & Hw) | (_ & _ & _ & Hw & _)]].
      * auto.
      * split.
        -- intros path d Hd. destruct (IH1 _ _ Hd) as [H1 | H1]; [| auto].
           rewrite Hw in H1. destruct (decide (out_path rt slug = path)) as [<- | Hne].
           ++ rewrite lookup_insert_eq in H1. injection H1 as <-. auto.
           ++ rewrite lookup_insert_ne in H1 by exact Hne. auto.
        -- intros path Hp. apply IH2. rewrite Hw.
           destruct (decide (out_path rt slug = path)) as [<- | Hne].
           ++ rewrite lookup_insert_eq. eauto.
           ++ rewrite lookup_insert_ne by exact Hne. exact Hp.
      * rewrite Hw in IH1, IH2. auto.
    + intros [= <- <-].
      destruct (fetch_game_cases _ _ _ _ Hf)
        as [(? & _) | [(? & _) | (_ & _ & _ & Hw & _)]]; try discriminate.
      rewrite Hw. auto.
Qed.

(** Each list of the tally only grows, by the identifiers filed under it. *)
Lemma main_loop_partition (games : list string) (t t' : tally) (w w' : world) :
  main_loop rt games t w = (Ok t', w') ->
  exists outs : list outcome,
    length outs = length games /\
    t_ok t' = t_ok t ++ assigned ok games outs /\
    t_skip t' = t_skip t ++ assigned skip games outs /\
    t_fail t' = t_fail t ++ assigned fail games outs.
Proof.
  revert t w. induction games as [| slug rest IH]; intros t w.
  - intros [= <- <-]. exists []. simpl. rewrite !app_nil_r. auto.
  - rewrite main_loop_step.
    destruct (fetch_game rt slug w) as [[o | e] w1]; [| intros [= ]].
    intros H. destruct (IH _ _ H) as (outs & Hlen & Hok & Hskip & Hfail).
    exists (o :: outs). split; [simpl; congruence |].
    rewrite Hok, Hskip, Hfail.
    destruct o; simpl; rewrite <- ?app_assoc; auto.
Qed.

Lemma fetch_game_present (slug path : string) (w w' : world) (r : result outcome) :
  fetch_game rt slug w = (r, w') ->
  is_Some (files w !! path) -> is_Some (files w' !! path).
Proof.
  intros Hf Hp.
  destruct (fetch_game_cases _ _ _ _ Hf)
    as [(_ & -> & _) | [(_ & _ & _ & data & _ & Hw) | (_ & _ & _ & Hw & _)]];
    [exact Hp | | rewrite Hw; exact Hp].
  rewrite Hw. destruct (decide (out_path rt slug = path)) as [<- | Hne].
  - rewrite lookup_insert_eq. eauto.
  - rewrite lookup_insert_ne by exact Hne. exact Hp.
Qed.

(** Whatever the loop has filed as downloaded or skipped has its file. *)
Lemma main_loop_stored (games : list string) (t t' : tally) (w w' : world) :
  main_loop rt games t w = (Ok t', w') ->
  (forall s : string,
      In s (t_ok t) \/ In s (t_skip t) -> is_Some (files w !! out_path rt s)) ->
  forall s : string,
    In s (t_ok t') \/ In s (t_skip t') -> is_Some (files w' !! out_path rt s).
Proof.
  revert t w. induction games as [| slug rest IH]; intros t w.
  - intros [= <- <-]. auto.
  - rewrite main_loop_step.
    destruct (fetch_game rt slug w) as [[o | e] w1] eqn:Hf; [| intros [= ]].
    intros H Hinv. apply (IH _ _ H). intros s Hs.
    rewrite after_step_files.
    assert (Hold : In s (t_ok t) \/ In s (t_skip t) ->
                   is_Some (files w1 !! out_path rt s)).
    { intros Hin. apply (fetch_game_present _ _ _ _ _ Hf), Hinv, Hin. }
    destruct (fetch_game_cases _ _ _ _ Hf)
      as [(Hr & Hw & Hp) | [(Hr & _ & _ & data & _ & Hw) | (Hs1 & Hs2 & _)]].
    + injection Hr as ->. subst w1. simpl in Hs.
      destruct Hs as [Hs | Hs]; [auto |].
      apply in_app_or in Hs. destruct Hs as [Hs | [<- | []]]; auto.
    + injection Hr as ->. simpl in Hs.
      destruct Hs as [Hs | Hs]; [| auto].
      apply in_app_or in Hs. destruct Hs as [Hs | [<- | []]]; [auto |].
      rewrite Hw, lookup_insert_eq. eauto.
    + destruct o; [congruence | congruence |]. simpl in Hs. auto.
Qed.

(** A list whose files all exist is skipped as a whole, in the same world. *)
Lemma main_loop_all_present (games : list string) (t : tally) (w : world) :
  (forall s : string, In s games -> is_Some (files w !! out_path rt s)) ->
  main_loop rt games t w
  = (Ok (Tally (t_ok t) (t_skip t ++ games) (t_fail t)), w).
Proof.
  revert t. induction games as [| slug rest IH]; intros t Hall.
  - simpl. rewrite app_nil_r. destruct t; reflexivity.
  - rewrite main_loop_step.
    assert (Hf : fetch_game rt slug w = (Ok skip, w)).
    { unfold fetch_game, bind, path_exists.
      rewrite bool_decide_eq_true_2 by (apply Hall; left; reflexivity).
      reflexivity. }
    rewrite Hf. unfold after_step. simpl.
    rewrite IH by (intros s Hs; apply Hall; right; exact Hs).
    simpl. rewrite <- app_assoc. reflexivity.
Qed.

Lemma assigned_cover (games : list string) (outs : list outcome) (s : string) :
  length outs = length games -> In s games ->
  In s (assigned ok games outs) \/ In s (assigned skip games outs) \/
  In s (assigned fail games outs).
Proof.
  revert outs. induction games as [| g games IH]; intros outs Hlen; [intros [] |].
  destruct outs as [| o outs]; [discriminate |]. injection Hlen as Hlen.
  intros [<- | Hs].
  - destruct o; simpl; auto.
  - destruct (IH outs Hlen Hs) as [H | [H | H]]; destruct o; simpl; auto.
Qed.

(** ** Persistence and idempotence *)

(** C5.  [fetch_game] and the loop of [main] write a file only with a body
    that [is_valid_swf] accepts, and [fetch_game] only under the
    identifier's own path.  When the record is found and both the direct
    and the archive step return nothing, the outcome is [fail], the stored
    files are those from before, the loop files the identifier under
    [fail], and every summary the run reaches lists it there. *)
Theorem persisted_only_if_valid :
  (forall (slug : string) (w w' : world) (r : result outcome)
          (path : string) (data : bytes),
      fetch_game rt slug w = (r, w') ->
      files w' !! path = Some data ->
      files w !! path = Some data \/
      (path = out_path rt slug /\ r = Ok ok /\ is_valid_swf (Some data) = true)) /\
  (forall (games : list string) (t : tally) (w w' : world) (r : result tally)
          (path : string) (data : bytes),
      main_loop rt games t w = (r, w') ->
      files w' !! path = Some data ->
      files w !! path = Some data \/ is_valid_swf (Some data) = true) /\
  (forall (slug : string) (w w1 w2 w3 : world) (record launch_cmd : json),
      files w !! out_path rt slug = None ->
      search_flashpoint rt (slug_to_title slug) w = (Ok (Some record), w1) ->
      Py.truthy record = true ->
      Py.get record "launchCommand" (JStr "") = Ok launch_cmd ->
      try_direct rt launch_cmd w1 = (Ok None, w2) ->
      try_wayback rt launch_cmd w2 = (Ok None, w3) ->
      fetch_game rt slug w = (Ok fail, w3) /\
      files w3 = files w /\
      forall (rest : list string) (t : tally),
        main_loop rt (slug :: rest) t w
        = main_loop rt rest (tally_append t fail slug) (paused w3) /\
        forall (final : tally) (wf : world),
          main_loop rt (slug :: rest) t w = (Ok final, wf) ->
          In slug (t_fail final)).
Proof.
  split; [| split].
  - intros slug w w' r path data Hf Hd.
    destruct (fetch_game_cases _ _ _ _ Hf)
      as [(_ & -> & _) | [(Hr & _ & _ & body & Hv & Hw) | (_ & _ & _ & Hw & _)]];
      [auto | | rewrite Hw in Hd; auto].
    rewrite Hw in Hd. destruct (decide (out_path rt slug = path)) as [<- | Hne].
    + rewrite lookup_insert_eq in Hd. injection Hd as <-. auto.
    + rewrite lookup_insert_ne in Hd by exact Hne. auto.
  - intros games t w w' r path data H. apply (main_loop_files _ _ _ _ _ H).
  - intros slug w w1 w2 w3 record launch_cmd Hnone Hs Htruth Hget Hd Hw.
    assert (Hf : fetch_game rt slug w = (Ok fail, w3)).
    { unfold fetch_game. unfold bind at 1. unfold path_exists.
      rewrite bool_decide_eq_false_2
        by (rewrite Hnone; intros [x Hx]; discriminate).
      unfold bind at 1. rewrite Hs. unfold no_match. rewrite Htruth. simpl.
      destruct record as [| | | | | | fields]; try discriminate. simpl.
      unfold bind at 1. simpl. unfold bind at 1. simpl.
      simpl in Hget. injection Hget as Hget. rewrite Hget.
      unfold bind at 1. simpl. unfold bind at 1.
      unfold retrieve, bind. rewrite Hd. simpl. rewrite Hw. reflexivity. }
    split; [exact Hf |].
    assert (Hfiles : files w3 = files w).
    { destruct (keeps_search_flashpoint rt _ _ _ _ Hs) as [H1 _].
      destruct (keeps_try_direct rt _ _ _ _ Hd) as [H2 _].
      destruct (keeps_try_wayback rt _ _ _ _ Hw) as [H3 _]. congruence. }
    split; [exact Hfiles |].
    intros rest t.
    assert (Hstep : main_loop rt (slug :: rest) t w
                    = main_loop rt rest (tally_append t fail slug) (paused w3)).
    { rewrite main_loop_step, Hf. reflexivity. }
    split; [exact Hstep |].
    intros final wf Hrun. rewrite Hstep in Hrun.
    destruct (main_loop_partition _ _ _ _ _ Hrun) as (outs & _ & _ & _ & Hfail).
    rewrite Hfail. simpl. apply in_or_app. left. apply in_or_app. right.
    left. reflexivity.
Qed.

(** X17.  Every run that reaches the summary has filed each identifier of
    its list under exactly one outcome, in the order of the list, and the
    three counts add up to the length of the list. *)
Lemma run_partitions (games : list string) (w w' : world) (t : tally) :
  run rt games w = (Ok t, w') ->
  partitions t games /\
  (let '(downloaded, skipped, failed) := counts t in
   downloaded + skipped + failed = length games)%nat.
Proof.
  intros H. destruct (main_loop_partition _ _ _ _ _ H)
    as (outs & Hlen & Hok & Hsk & Hfail).
  simpl in Hok, Hsk, Hfail. split; [exists outs; auto |].
  unfold counts. rewrite Hok, Hsk, Hfail. clear -Hlen.
  revert outs Hlen. induction games as [| g games IH]; intros outs Hlen.
  - destruct outs; reflexivity.
  - destruct outs as [| o outs]; [discriminate |]. injection Hlen as Hlen.
    specialize (IH outs Hlen). destruct o; simpl; lia.
Qed.

End Orchestrator.

(** C6.  An identifier whose file exists when it is processed gets the
    outcome [skip] in the world it started in: no request is sent, and the
    loop goes on without a pause.  Hence a second run, from the storage a
    first run left (in the same directory), skips every identifier the
    first run downloaded or skipped, and when the first run left none
    unresolved the whole second run sends no request and files every
    identifier under [skip]. *)
Theorem existing_file_skipped (rt : runtime) :
  (forall (slug : string) (w : world),
      is_Some (files w !! out_path rt slug) ->
      fetch_game rt slug w = (Ok skip, w) /\
      forall (rest : list string) (t : tally),
        main_loop rt (slug :: rest) t w
        = main_loop rt rest (tally_append t skip slug) w) /\
  (forall (rt1 : runtime) (games : list string) (w0 w1 : world) (t1 : tally),
      script_dir rt1 = script_dir rt ->
      run rt1 games w0 = (Ok t1, w1) ->
      (forall slug : string,
          In slug (t_ok t1) \/ In slug (t_skip t1) ->
          is_Some (files w1 !! out_path rt slug)) /\
      (forall (pre suf : list string) (slug : string) (t : tally) (w : world),
          games = pre ++ slug :: suf ->
          In slug (t_ok t1) \/ In slug (t_skip t1) ->
          main_loop rt pre (Tally [] [] []) w1 = (Ok t, w) ->
          fetch_game rt slug w = (Ok skip, w) /\
          main_loop rt (pre ++ [slug]) (Tally [] [] []) w1
          = (Ok (tally_append t skip slug), w)) /\
      (t_fail t1 = [] -> run rt games w1 = (Ok (Tally [] games []), w1))).
Proof.
  assert (Hskip : forall (slug : string) (w : world),
             is_Some (files w !! out_path rt slug) ->
             fetch_game rt slug w = (Ok skip, w)).
  { intros slug w Hp. unfold fetch_game, bind, path_exists.
    rewrite bool_decide_eq_true_2 by exact Hp. reflexivity. }
  split.
  - intros slug w Hp. split; [apply Hskip, Hp |].
    intros rest t. rewrite main_loop_step, (Hskip _ _ Hp). reflexivity.
  - intros rt1 games w0 w1 t1 Hdir Hrun.
    assert (Hpath : forall s : string, out_path rt1 s = out_path rt s).
    { intros s. unfold out_path, GAMES_DIR. rewrite Hdir. reflexivity. }
    assert (Hstored : forall slug : string,
               In slug (t_ok t1) \/ In slug (t_skip t1) ->
               is_Some (files w1 !! out_path rt slug)).
    { intros slug Hin. rewrite <- Hpath.
      apply (main_loop_stored rt1 _ _ _ _ _ Hrun); [| exact Hin].
      simpl. intros s [[] | []]. }
    split; [exact Hstored | split].
    + intros pre suf slug t w Hgames Hin Hpre.
      assert (Hp : is_Some (files w !! out_path rt slug)).
      { destruct (main_loop_files rt _ _ _ _ _ Hpre) as [_ Hmono].
        apply Hmono, Hstored, Hin. }
      split; [apply Hskip, Hp |].
      rewrite main_loop_app, Hpre, main_loop_step, (Hskip _ _ Hp). reflexivity.
    + intros Hnofail. unfold run.
      rewrite main_loop_all_present; [reflexivity |].
      intros s Hs. apply Hstored.
      destruct (main_loop_partition rt1 _ _ _ _ _ Hrun)
        as (outs & Hlen & Hok & Hsk & Hfail).
      simpl in Hok, Hsk, Hfail. rewrite Hok, Hsk.
      destruct (assigned_cover games outs s Hlen Hs) as [H | [H | H]]; auto.
      rewrite <- Hfail, Hnofail in H. destruct H.
Qed.


(** ** Failures that are absorbed, and failures that are not *)

(** X8.  A missing, empty or undecodable answer, and one that decodes to a
    false value ([null], [false], [0], an empty string, list or object),
    make [search_flashpoint] return [None]. *)
Lemma search_flashpoint_soft (rt : runtime) (title : string) (w w1 : world)
      (data : option bytes) :
  http_get rt (search_url title) 20 w = (Ok data, w1) ->
  data = None \/ data = Some [] \/
  (exists d : bytes, data = Some d /\ json_loads rt d = None) \/
  (exists (d : bytes) (results : json),
      data = Some d /\ json_loads rt d = Some results /\
      Py.truthy results = false) ->
  search_flashpoint rt title w = (Ok None, w1).
Proof.
  intros Hget H. unfold search_flashpoint, bind. rewrite Hget.
  destruct H as [-> | [-> | [(d & -> & Hj) | (d & results & -> & Hj & Ht)]]];
    try reflexivity.
  - destruct d; [reflexivity |]. simpl. rewrite Hj. reflexivity.
  - destruct d; [reflexivity |]. simpl. rewrite Hj, Ht. reflexivity.
Qed.

(** C7, at the failing inputs.  An answer that decodes to a non-empty value
    of another shape than a list of objects is not absorbed: on the error
    object [{"error":"Too many requests"}] and on the list [[1]] the first
    loop raises [AttributeError], on the number [5] it raises [TypeError],
    each after the one request. *)
Theorem search_flashpoint_raises_on_shape :
  search_flashpoint Scenario.catalog_error "Tanks" Scenario.empty_world
  = (Raise AttributeError,
     logged Scenario.empty_world (Request (search_url "Tanks") 20)) /\
  search_flashpoint Scenario.catalog_numbers "Tanks" Scenario.empty_world
  = (Raise AttributeError,
     logged Scenario.empty_world (Request (search_url "Tanks") 20)) /\
  search_flashpoint Scenario.catalog_number "Tanks" Scenario.empty_world
  = (Raise TypeError,
     logged Scenario.empty_world (Request (search_url "Tanks") 20)).
Proof. split; [| split]; vm_compute; reflexivity. Qed.

(** C8, at the failing inputs.  With the index answer
    [[["timestamp","statuscode"],[]]] the subscript [rows[1][0]] raises
    [IndexError], and with an object of two members [rows[1]] raises
    [KeyError]; the exception leaves [try_wayback], [fetch_game] and the
    loop of [main]. *)
Theorem try_wayback_raises_on_shape :
  try_wayback Scenario.index_empty_row (JStr Scenario.tanks_url) Scenario.empty_world
  = (Raise IndexError,
     logged Scenario.empty_world (Request (cdx_url Scenario.tanks_url) 20)) /\
  try_wayback Scenario.index_error (JStr Scenario.tanks_url) Scenario.empty_world
  = (Raise KeyError,
     logged Scenario.empty_world (Request (cdx_url Scenario.tanks_url) 20)) /\
  fst (fetch_game Scenario.index_empty_row "tanks" Scenario.empty_world)
  = Raise IndexError /\
  fst (run Scenario.index_empty_row ["tanks"] Scenario.empty_world)
  = Raise IndexError.
Proof. split; [| split; [| split]]; vm_compute; reflexivity. Qed.

(** C10, at the failing input.  When the catalog is silent on the first
    identifier of [GAMES] and answers the second with the error object,
    [main] files the first identifier, pauses, sends the second query and
    is ended by [AttributeError]: no summary is produced and the other
    identifiers get no outcome. *)
Theorem main_aborted_by_exception :
  main Scenario.second_game_error Scenario.empty_world
  = (Raise AttributeError,
     logged (paused (logged Scenario.empty_world
                            (Request (search_url "VR Defender Y3K") 20)))
            (Request (search_url "1048 Castle") 20)).
Proof. vm_compute. reflexivity. Qed.

(** ** The properties at concrete runs *)

Lemma search_flashpoint_selects_witness :
  (exists r : json,
      search_flashpoint Scenario.foo_catalog "foo" Scenario.empty_world
      = (Ok (Some r),
         logged Scenario.empty_world (Request (search_url "foo") 20)) /\
      Policy.select Text.lower "foo" [Scenario.web_foo; Scenario.flash_foo]
      = Some r /\
      Policy.selected Text.lower "foo" [Scenario.web_foo; Scenario.flash_foo] r) /\
  pick Text.lower "foo" (JArr [Scenario.web_foo; Scenario.flash_foo])
  = Ok Scenario.flash_foo.
Proof.
  split.
  - apply (proj1 (search_flashpoint_selects Scenario.foo_catalog) "foo"
                 [Scenario.web_foo; Scenario.flash_foo]
                 (bytes_of Scenario.foo_text)).
    + vm_compute. reflexivity.
    + vm_compute. discriminate.
    + vm_compute. reflexivity.
    + discriminate.
    + intros r [<- | [<- | []]]; reflexivity.
  - apply (proj2 (search_flashpoint_selects Scenario.foo_catalog)).
    intros s _. reflexivity.
Defined.

Lemma dead_url_short_circuit_witness :
  retrieve Scenario.tanks_gone (JStr "http://localflash/tanks.swf") Scenario.empty_world
  = (Ok None, Scenario.empty_world) /\
  retrieve Scenario.tanks_gone (JStr "") Scenario.empty_world
  = (Ok None, Scenario.empty_world).
Proof.
  split.
  - apply (dead_url_short_circuit Scenario.tanks_gone).
    right. exists "http://localflash/tanks.swf". split; reflexivity.
  - apply (dead_url_short_circuit Scenario.tanks_gone). left. reflexivity.
Defined.

Lemma archive_fallback_witness :
  retrieve Scenario.y_online (JStr Scenario.y_url) Scenario.empty_world
  = (Ok (Some Scenario.swf_body),
     logged Scenario.empty_world (Request Scenario.y_url 15)) /\
  try_wayback Scenario.tanks_gone (JStr Scenario.tanks_url) Scenario.empty_world
  = (Ok None,
     logged (logged Scenario.empty_world (Request (cdx_url Scenario.tanks_url) 20))
            (Request (WAYBACK_RAW Scenario.tanks_stamp Scenario.tanks_url) 30)).
Proof.
  split.
  - apply (proj1 (archive_fallback Scenario.y_online)).
    vm_compute. reflexivity.
  - destruct (archive_fallback Scenario.tanks_gone)
      as (_ & _ & _ & _ & _ & H & _).
    rewrite (H Scenario.tanks_url Scenario.empty_world
               (bytes_of (Scenario.cdx_text Scenario.tanks_stamp))
               (JArr [JStr "timestamp"; JStr "statuscode"])
               Scenario.tanks_stamp [JStr "200"] []).
    + vm_compute. reflexivity.
    + discriminate.
    + reflexivity.
    + vm_compute. reflexivity.
    + vm_compute. reflexivity.
    + vm_compute. discriminate.
    + vm_compute. reflexivity.
    + vm_compute. reflexivity.
Defined.

Lemma persisted_only_if_valid_witness :
  fetch_game Scenario.tanks_gone "tanks" Scenario.empty_world
  = (Ok fail,
     logged
       (logged
          (logged
             (logged Scenario.empty_world (Request (search_url "Tanks") 20))
             (Request Scenario.tanks_url 15))
          (Request (cdx_url Scenario.tanks_url) 20))
       (Request (WAYBACK_RAW Scenario.tanks_stamp Scenario.tanks_url) 30)).
Proof.
  destruct (persisted_only_if_valid Scenario.tanks_gone) as (_ & _ & H).
  apply (H "tanks" Scenario.empty_world
           (logged Scenario.empty_world (Request (search_url "Tanks") 20))
           (logged (logged Scenario.empty_world (Request (search_url "Tanks") 20))
                   (Request Scenario.tanks_url 15))
           _
           (JObj [("title", JStr "Tanks"); ("platform", JStr "Flash");
                  ("launchCommand", JStr Scenario.tanks_url)])
           (JStr Scenario.tanks_url)).
  - vm_compute. reflexivity.
  - vm_compute. reflexivity.
  - reflexivity.
  - reflexivity.
  - vm_compute. reflexivity.
  - vm_compute. reflexivity.
Defined.

Lemma existing_file_skipped_witness :
  fetch_game Scenario.y_online "x" Scenario.x_stored = (Ok skip, Scenario.x_stored) /\
  run Scenario.y_online ["x"; "y"] Scenario.x_stored
  = (Ok (Tally ["y"] ["x"] []),
     snd (run Scenario.y_online ["x"; "y"] Scenario.x_stored)) /\
  run Scenario.y_online ["x"; "y"]
      (snd (run Scenario.y_online ["x"; "y"] Scenario.x_stored))
  = (Ok (Tally [] ["x"; "y"] []),
     snd (run Scenario.y_online ["x"; "y"] Scenario.x_stored)).
Proof.
  destruct (existing_file_skipped Scenario.y_online) as [Hfirst Hsecond].
  assert (Hrun : run Scenario.y_online ["x"; "y"] Scenario.x_stored
                 = (Ok (Tally ["y"] ["x"] []),
                    snd (run Scenario.y_online ["x"; "y"] Scenario.x_stored))).
  { vm_compute. reflexivity. }
  split; [| split; [exact Hrun |]].
  - apply Hfirst. vm_compute. eauto.
  - destruct (Hsecond Scenario.y_online ["x"; "y"] Scenario.x_stored _ _
                      eq_refl Hrun) as (_ & _ & Hall).
    apply Hall. reflexivity.
Defined.

(** * Further properties of the script's functions *)

(** ** [is_valid_swf] *)

(** X1.  The check reads the length and the first three bytes and nothing
    else: two buffers of at least 8 bytes with the same first three bytes
    get the same verdict, and whatever is appended to a valid buffer leaves
    it valid. *)
Theorem is_valid_swf_header_only :
  (forall d1 d2 : bytes,
      (8 <= length d1)%nat -> (8 <= length d2)%nat ->
      take 3 d1 = take 3 d2 ->
      is_valid_swf (Some d1) = is_valid_swf (Some d2)) /\
  (forall d more : bytes,
      is_valid_swf (Some d) = true -> is_valid_swf (Some (d ++ more)) = true).
Proof.
  assert (Hlong : forall d : bytes,
             (8 <= length d)%nat -> is_valid_swf (Some d) = has_swf_magic d).
  { intros d Hd. unfold is_valid_swf.
    destruct (Nat.ltb_spec (length d) 8); [lia |].
    destruct d; [simpl in Hd; lia | reflexivity]. }
  split.
  - intros d1 d2 H1 H2 Heq. rewrite (Hlong d1 H1), (Hlong d2 H2).
    unfold has_swf_magic. rewrite Heq. reflexivity.
  - intros d more Hv.
    assert (Hd : (8 <= length d)%nat).
    { unfold is_valid_swf in Hv.
      destruct (Nat.ltb_spec (length d) 8); [| assumption].
      rewrite orb_true_r in Hv. discriminate. }
    rewrite Hlong in Hv by exact Hd.
    rewrite Hlong by (rewrite length_app; lia).
    unfold has_swf_magic in *. rewrite take_app_le by lia. exact Hv.
Qed.

Lemma is_valid_swf_header_only_witness :
  is_valid_swf (Some (bytes_of "CWS-one-body")) = is_valid_swf (Some (bytes_of "CWS-another"))
  /\ is_valid_swf (Some (Scenario.swf_body ++ Scenario.html_body)) = true.
Proof.
  destruct is_valid_swf_header_only as [Hsame Hmore]. split.
  - apply Hsame; [vm_compute; lia | vm_compute; lia | reflexivity].
  - apply Hmore. reflexivity.
Defined.

(** ** [slug_to_title] *)

Lemma to_lower_cases (c : ascii) :
  Text.to_lower (Text.to_upper c) = Text.to_lower c /\
  Text.to_lower (Text.to_lower c) = Text.to_lower c /\
  Text.to_lower (if Ascii.eqb c "-" then " "%char else c)
  = (if Ascii.eqb (Text.to_lower c) "-" then " "%char else Text.to_lower c) /\
  Text.to_lower (if Ascii.eqb c "_" then " "%char else c)
  = (if Ascii.eqb (Text.to_lower c) "_" then " "%char else Text.to_lower c).
Proof.
  destruct c as [[] [] [] [] [] [] [] []]; vm_compute; auto.
Qed.

Lemma lower_title_from (p : bool) (s : string) :
  Text.lower (Text.title_from p s) = Text.lower s.
Proof.
  revert p. induction s as [| c r IH]; intros p; simpl; [reflexivity |].
  rewrite IH. destruct (to_lower_cases c) as (H1 & H2 & _).
  destruct p; [rewrite H2 | rewrite H1]; reflexivity.
Qed.

Lemma lower_replace_separators (s : string) :
  Text.lower (Text.replace "_" " " (Text.replace "-" " " s))
  = Text.replace "_" " " (Text.replace "-" " " (Text.lower s)).
Proof.
  induction s as [| c r IH]; simpl; [reflexivity |].
  rewrite IH. f_equal.
  destruct c as [[] [] [] [] [] [] [] []]; vm_compute; reflexivity.
Qed.

Lemma length_title_from (p : bool) (s : string) :
  String.length (Text.title_from p s) = String.length s.
Proof.
  revert p. induction s as [| c r IH]; intros p; simpl; [| rewrite IH];
    reflexivity.
Qed.

Lemma length_replace (old new : ascii) (s : string) :
  String.length (Text.replace old new s) = String.length s.
Proof. induction s as [| c r IH]; simpl; [| rewrite IH]; reflexivity. Qed.

Lemma ascii_char_cases (c : ascii) :
  (nat_of_ascii c <? 128)%nat = true ->
  (nat_of_ascii (Text.to_upper c) <? 128)%nat = true /\
  (nat_of_ascii (Text.to_lower c) <? 128)%nat = true /\
  (nat_of_ascii (if Ascii.eqb c "-" then " "%char else c) <? 128)%nat = true /\
  (nat_of_ascii (if Ascii.eqb c "_" then " "%char else c) <? 128)%nat = true.
Proof.
  destruct c as [[] [] [] [] [] [] [] []]; vm_compute; auto.
Qed.

Lemma is_ascii_title_from (p : bool) (s : string) :
  Text.is_ascii s = true -> Text.is_ascii (Text.title_from p s) = true.
Proof.
  revert p. induction s as [| c r IH]; intros p; [reflexivity |].
  change (Text.is_ascii (String c r))
    with ((nat_of_ascii c <? 128)%nat && Text.is_ascii r).
  rewrite andb_true_iff. intros [Hc Hr].
  destruct (ascii_char_cases c Hc) as (Hu & Hl & _).
  change (Text.title_from p (String c r))
    with (String (if p then Text.to_lower c else Text.to_upper c)
                 (Text.title_from (Text.is_cased c) r)).
  change (Text.is_ascii (String ?x ?y))
    with ((nat_of_ascii x <? 128)%nat && Text.is_ascii y).
  rewrite (IH _ Hr), andb_true_r. destruct p; assumption.
Qed.

Lemma is_ascii_replace_separators (s : string) :
  Text.is_ascii s = true ->
  Text.is_ascii (Text.replace "_" " " (Text.replace "-" " " s)) = true.
Proof.
  induction s as [| c r IH]; [reflexivity |].
  change (Text.is_ascii (String c r))
    with ((nat_of_ascii c <? 128)%nat && Text.is_ascii r).
  rewrite andb_true_iff. intros [Hc Hr].
  change (Text.replace "_" " " (Text.replace "-" " " (String c r)))
    with (String (if Ascii.eqb (if Ascii.eqb c "-" then " "%char else c) "_"
                  then " "%char
                  else (if Ascii.eqb c "-" then " "%char else c))
                 (Text.replace "_" " " (Text.replace "-" " " r))).
  change (Text.is_ascii (String ?x ?y))
    with ((nat_of_ascii x <? 128)%nat && Text.is_ascii y).
  rewrite (IH Hr), andb_true_r.
  destruct (ascii_char_cases c Hc) as (_ & _ & H1 & _).
  destruct (ascii_char_cases _ H1) as (_ & _ & _ & H2). exact H2.
Qed.

Lemma is_ascii_default_title (slug : string) :
  Text.is_ascii slug = true -> Text.is_ascii (default_title slug) = true.
Proof.
  intros H. unfold default_title, Text.title.
  apply is_ascii_title_from, is_ascii_replace_separators, H.
Qed.

(** X2.  For an ASCII identifier, as all of [GAMES] are, the title-casing
    of the default transform does not reach the matching:
    [search_flashpoint] compares with [title.lower()], and the lower case
    of the default title is the lower case of the identifier with hyphens
    and underscores replaced by spaces.  The default title of such an
    identifier is ASCII and as long as the identifier. *)
Theorem default_title_lower (lower : string -> string) (slug : string) :
  ascii_faithful lower ->
  Text.is_ascii slug = true ->
  lower (default_title slug)
  = Text.replace "_" " " (Text.replace "-" " " (lower slug)) /\
  Text.is_ascii (default_title slug) = true /\
  String.length (default_title slug) = String.length slug.
Proof.
  intros Hlower Hslug.
  pose proof (is_ascii_default_title slug Hslug) as Hd.
  split; [| split; [exact Hd |]].
  - rewrite (Hlower _ Hd), (Hlower _ Hslug).
    unfold default_title, Text.title.
    rewrite lower_title_from. apply lower_replace_separators.
  - unfold default_title, Text.title.
    rewrite length_title_from, !length_replace. reflexivity.
Qed.

Lemma default_title_lower_witness :
  Text.lower (default_title "Bubble-TANKS_2") = "bubble tanks 2" /\
  Text.is_ascii (default_title "Bubble-TANKS_2") = true /\
  String.length (default_title "Bubble-TANKS_2") = 14%nat.
Proof.
  apply (default_title_lower Text.lower "Bubble-TANKS_2").
  - intros s _. reflexivity.
  - reflexivity.
Defined.

(** ** [urlencode] and the request URLs *)

Lemma string_length_app (x y : string) :
  String.length (x +:+ y) = (String.length x + String.length y)%nat.
Proof. induction x as [| c x IH]; simpl; [| rewrite IH]; reflexivity. Qed.

Lemma string_app_inv_tail (x y tail : string) :
  x +:+ tail = y +:+ tail -> x = y.
Proof.
  revert y. induction x as [| c x IH]; intros [| d y] H; simpl in H.
  - reflexivity.
  - apply (f_equal String.length) in H.
    rewrite !string_length_app in H. simpl in H. lia.
  - apply (f_equal String.length) in H.
    rewrite !string_length_app in H. simpl in H. lia.
  - injection H as -> H. rewrite (IH y H). reflexivity.
Qed.

Lemma string_app_inv_head (head x y : string) :
  head +:+ x = head +:+ y -> x = y.
Proof.
  induction head as [| c h IH]; simpl; [auto |].
  intros [= H]. apply IH, H.
Qed.

Lemma read_back_step (c : ascii) (r : string) :
  read_back (Url.quote_plus (String c r))
  = match read_back (Url.quote_plus r) with
    | Some t => Some (String c t)
    | None => None
    end.
Proof.
  destruct c as [[] [] [] [] [] [] [] []]; reflexivity.
Qed.

Lemma read_back_quote_plus (s : string) :
  read_back (Url.quote_plus s) = Some s.
Proof.
  induction s as [| c r IH]; [reflexivity |].
  rewrite read_back_step, IH. reflexivity.
Qed.

Lemma every_char_step (c : ascii) (r : string) :
  every_char is_query_char (Url.quote_plus (String c r))
  = every_char is_query_char (Url.quote_plus r).
Proof.
  destruct c as [[] [] [] [] [] [] [] []]; reflexivity.
Qed.

(** X3.  [quote_plus] writes only letters, digits, [_.-~], [+] and [%]:
    an encoded title or URL holds no space and none of [& = # ? /], so it
    cannot end its parameter or add one. *)
Theorem quote_plus_alphabet (s : string) :
  every_char is_query_char (Url.quote_plus s) = true /\
  every_char (fun c => negb (Ascii.eqb c "&") && negb (Ascii.eqb c "=")
                       && negb (Ascii.eqb c "#") && negb (Ascii.eqb c "?")
                       && negb (Ascii.eqb c "/") && negb (Ascii.eqb c " "))
             (Url.quote_plus s) = true.
Proof.
  assert (H1 : every_char is_query_char (Url.quote_plus s) = true).
  { induction s as [| c r IH]; [reflexivity |].
    rewrite every_char_step. exact IH. }
  split; [exact H1 |].
  revert H1. generalize (Url.quote_plus s). intros t.
  induction t as [| c r IH]; simpl; [reflexivity |].
  rewrite andb_true_iff. intros [Hc Hr]. rewrite (IH Hr), andb_true_r.
  revert Hc. destruct c as [[] [] [] [] [] [] [] []]; vm_compute;
    intros H; first [reflexivity | discriminate H].
Qed.

(** X4.  The encoding loses nothing: different texts have different
    encodings, so different titles give different catalog queries and
    different launch URLs different index queries. *)
Theorem request_urls_injective :
  (forall s1 s2 : string, Url.quote_plus s1 = Url.quote_plus s2 -> s1 = s2) /\
  (forall t1 t2 : string, search_url t1 = search_url t2 -> t1 = t2) /\
  (forall u1 u2 : string, cdx_url u1 = cdx_url u2 -> u1 = u2).
Proof.
  assert (Hq : forall s1 s2 : string,
             Url.quote_plus s1 = Url.quote_plus s2 -> s1 = s2).
  { intros s1 s2 H. apply (f_equal read_back) in H.
    rewrite !read_back_quote_plus in H. injection H as ->. reflexivity. }
  split; [exact Hq | split].
  - intros t1 t2 H. apply Hq.
    unfold search_url, Url.urlencode in H. simpl in H.
    unfold Url.pair_text in H. simpl in H.
    apply (string_app_inv_head "https://db-api.unstable.life/search?title=") in H.
    apply (string_app_inv_tail _ _ _ H).
  - intros u1 u2 H. apply Hq.
    unfold cdx_url, Url.urlencode in H. simpl in H.
    unfold Url.pair_text in H. simpl in H.
    apply (string_app_inv_head "https://web.archive.org/cdx/search/cdx?url=") in H.
    apply (string_app_inv_tail _ _ _ H).
Qed.

Lemma request_urls_injective_witness :
  search_url "Bubble Tanks" <> search_url "Bubble Tanks 2".
Proof.
  intros H. apply (proj1 (proj2 request_urls_injective)) in H. discriminate H.
Defined.

(** ** [out_path] *)

Lemma rev_app_app (x y acc : string) :
  String.rev_app (x +:+ y) acc = String.rev_app y (String.rev_app x acc).
Proof.
  revert acc. induction x as [| c x IH]; intros acc; simpl; [reflexivity |].
  apply IH.
Qed.

Lemma string_app_assoc (x y z : string) : (x +:+ y) +:+ z = x +:+ y +:+ z.
Proof.
  induction x as [| c x IH]; [reflexivity |].
  change (String c ((x +:+ y) +:+ z) = String c (x +:+ y +:+ z)).
  rewrite IH. reflexivity.
Qed.

(** Joining a relative name that is not empty gives a path that ends with
    the name. *)
Lemma os_path_join_relative (a p : string) :
  Text.startswith p "/" = false ->
  exists d : string, os_path_join a p = d +:+ p.
Proof.
  intros Hp. unfold os_path_join. rewrite Hp.
  destruct (String.eqb a "" || Text.startswith (String.rev a) "/").
  - exists a. reflexivity.
  - exists (a +:+ "/"). symmetry. apply string_app_assoc.
Qed.

Lemma games_dir_shape (rt : runtime) :
  exists d : string, GAMES_DIR rt = d +:+ "games".
Proof. unfold GAMES_DIR. apply os_path_join_relative. reflexivity. Qed.

Lemma startswith_slash (c : ascii) (r : string) :
  Text.startswith (String c r) "/" = Ascii.eqb "/" c.
Proof.
  change (Text.startswith (String c r) "/")
    with (Ascii.eqb "/" c && Text.startswith r "").
  destruct r; apply andb_true_r.
Qed.

Lemma relative_file_name (slug : string) :
  Text.startswith slug "/" = false ->
  Text.startswith (slug +:+ ".swf") "/" = false.
Proof.
  destruct slug as [| c r]; [reflexivity |].
  change (String c r +:+ ".swf") with (String c (r +:+ ".swf")).
  rewrite !startswith_slash. auto.
Qed.

(** X5.  The path [fetch_game] checks and writes is, as a text,
    [GAMES_DIR/<identifier>.swf] for an identifier that does not start
    with a slash.  For an identifier that starts with a slash it is
    [<identifier>.swf], outside the games directory: [os.path.join] drops
    the directory before an absolute name. *)
Theorem out_path_layout (rt : runtime) :
  (forall slug : string,
      Text.startswith slug "/" = false ->
      out_path rt slug = GAMES_DIR rt +:+ "/" +:+ slug +:+ ".swf") /\
  (forall slug : string,
      Text.startswith slug "/" = true ->
      out_path rt slug = slug +:+ ".swf").
Proof.
  split.
  - intros slug Hs. unfold out_path.
    destruct (games_dir_shape rt) as [d Hd]. rewrite Hd.
    unfold os_path_join. rewrite (relative_file_name slug Hs).
    assert (Hne : String.eqb (d +:+ "games") "" = false).
    { destruct (String.eqb_spec (d +:+ "games") "") as [E |]; [| reflexivity].
      apply (f_equal String.length) in E. rewrite string_length_app in E.
      simpl in E. lia. }
    assert (Hend : Text.startswith (String.rev (d +:+ "games")) "/" = false).
    { unfold String.rev. rewrite rev_app_app. reflexivity. }
    rewrite Hne, Hend. reflexivity.
  - intros slug Hs. unfold out_path, os_path_join.
    destruct slug as [| c r]; [discriminate |].
    change (String c r +:+ ".swf") with (String c (r +:+ ".swf")).
    rewrite startswith_slash in *. rewrite Hs. reflexivity.
Qed.

Lemma out_path_layout_witness :
  out_path Scenario.y_online "tanks" = "scripts/../games/tanks.swf" /\
  out_path Scenario.y_online "/tmp/tanks" = "/tmp/tanks.swf".
Proof.
  destruct (out_path_layout Scenario.y_online) as (Hrel & Habs).
  split.
  - rewrite Hrel; reflexivity.
  - apply Habs. reflexivity.
Defined.

(** ** What [search_flashpoint] can return *)

Lemma first_where_some (test : json -> result bool) (items : list json) (r : json) :
  first_where test items = Ok (Some r) -> In r items /\ test r = Ok true.
Proof.
  induction items as [| x l IH]; simpl; [discriminate |].
  destruct (test x) as [[|] | e] eqn:Hx; simpl; [| | discriminate].
  - intros [= ->]. auto.
  - intros H. destruct (IH H). auto.
Qed.

Lemma first_where_none (test : json -> result bool) (items : list json) :
  first_where test items = Ok None ->
  forall x : json, In x items -> test x = Ok false.
Proof.
  induction items as [| x l IH]; simpl; [intros _ y [] |].
  destruct (test x) as [[|] | e] eqn:Hx; simpl; try discriminate.
  intros H y [<- | Hy]; [exact Hx | apply (IH H y Hy)].
Qed.

Lemma title_is_object (lower : string -> string) (tl : string) (r : json)
      (v : bool) :
  title_is lower tl r = Ok v -> exists fields, r = JObj fields.
Proof. destruct r; try discriminate. eauto. Qed.

Lemma on_flash_object (lower : string -> string) (r : json) (v : bool) :
  on_flash lower r = Ok v -> exists fields, r = JObj fields.
Proof. destruct r; try discriminate. eauto. Qed.

Lemma title_and_flash_object (lower : string -> string) (tl : string)
      (r : json) (v : bool) :
  title_and_flash lower tl r = Ok v -> exists fields, r = JObj fields.
Proof. destruct r; try discriminate. eauto. Qed.

Lemma first_where_app (test : json -> result bool) (before after : list json)
      (r : json) :
  (forall x : json, In x before -> test x = Ok false) ->
  test r = Ok true ->
  first_where test (before ++ r :: after) = Ok (Some r).
Proof.
  intros Hb Hr. induction before as [| x l IH]; simpl.
  - rewrite Hr. reflexivity.
  - rewrite (Hb x (or_introl eq_refl)). simpl.
    apply IH. intros y Hy. apply Hb. right. exact Hy.
Qed.

(** X6.  Whatever the decoded answer is, a record that the selection
    returns is an element of a decoded list and is an object; so is every
    record [search_flashpoint] hands to [fetch_game], whose three
    [match.get] calls therefore never raise. *)
Theorem pick_member :
  (forall (lower : string -> string) (term : string) (results r : json),
      pick lower term results = Ok r ->
      exists (items : list json) (fields : list (string * json)),
        results = JArr items /\ In r items /\ r = JObj fields) /\
  (forall (rt : runtime) (title : string) (w w' : world) (r : json),
      search_flashpoint rt title w = (Ok (Some r), w') ->
      exists fields : list (string * json),
        r = JObj fields /\
        forall key default, Py.get r key default
                            = Ok (match Py.assoc key fields with
                                  | Some x => x
                                  | None => default
                                  end)).
Proof.
  assert (Hpick : forall (lower : string -> string) (term : string)
                          (results r : json),
             pick lower term results = Ok r ->
             exists (items : list json) (fields : list (string * json)),
               results = JArr items /\ In r items /\ r = JObj fields).
  { intros lower term results r. unfold pick.
    destruct (Py.iter results) as [items |] eqn:Hiter; [| discriminate].
    simpl.
    destruct (first_where (title_and_flash lower (lower term)) items)
      as [[r1 |] |] eqn:H1; simpl; [| | discriminate].
    { intros [= ->]. destruct (first_where_some _ _ _ H1) as [Hin Ht].
      destruct (title_and_flash_object _ _ _ _ Ht) as [fields ->].
      destruct results; try discriminate; simpl in Hiter;
        injection Hiter as <-.
      - apply in_map_iff in Hin. destruct Hin as (x & Hx & _). discriminate.
      - eauto.
      - apply in_map_iff in Hin. destruct Hin as (x & Hx & _). discriminate. }
    destruct (first_where (title_is lower (lower term)) items)
      as [[r2 |] |] eqn:H2; simpl; [| | discriminate].
    { intros [= ->]. destruct (first_where_some _ _ _ H2) as [Hin Ht].
      destruct (title_is_object _ _ _ _ Ht) as [fields ->].
      destruct results; try discriminate; simpl in Hiter;
        injection Hiter as <-.
      - apply in_map_iff in Hin. destruct Hin as (x & Hx & _). discriminate.
      - eauto.
      - apply in_map_iff in Hin. destruct Hin as (x & Hx & _). discriminate. }
    destruct (first_where (on_flash lower) items) as [[r3 |] |] eqn:H3; simpl;
      [| | discriminate].
    { intros [= ->]. destruct (first_where_some _ _ _ H3) as [Hin Ht].
      destruct (on_flash_object _ _ _ Ht) as [fields ->].
      destruct results; try discriminate; simpl in Hiter;
        injection Hiter as <-.
      - apply in_map_iff in Hin. destruct Hin as (x & Hx & _). discriminate.
      - eauto.
      - apply in_map_iff in Hin. destruct Hin as (x & Hx & _). discriminate. }
    pose proof (first_where_none _ _ H3) as Hall.
    destruct results as [| | | | s | l | fs]; try discriminate;
      simpl in Hiter; injection Hiter as <-.
    - destruct s as [| c s]; [discriminate |].
      specialize (Hall (JStr (String c EmptyString)) (or_introl eq_refl)).
      discriminate.
    - destruct l as [| x l]; [discriminate |]. simpl. intros [= ->].
      destruct (on_flash_object _ _ _ (Hall r (or_introl eq_refl)))
        as [fields ->].
      exists (JObj fields :: l), fields. simpl. auto. }
  split; [exact Hpick |].
  intros rt title w w' r. unfold search_flashpoint, bind.
  destruct (http_get rt (search_url title) 20 w) as [[[d |] | e] w1];
    [| discriminate | discriminate].
  destruct (negb (Py.some_bytes (Some d))); [discriminate |].
  destruct (json_loads rt d) as [results |]; [| discriminate].
  destruct (negb (Py.truthy results)); [discriminate |].
  unfold lift.
  destruct (pick (str_lower rt) title results) as [r' | e] eqn:Hp;
    [| discriminate].
  intros [= -> _].
  destruct (Hpick _ _ _ _ Hp) as (items & fields & _ & _ & ->).
  exists fields. split; reflexivity.
Qed.

Lemma pick_member_witness :
  exists (items : list json) (fields : list (string * json)),
    JArr [Scenario.web_foo; Scenario.flash_foo] = JArr items /\
    In Scenario.flash_foo items /\ Scenario.flash_foo = JObj fields.
Proof.
  apply (proj1 pick_member Text.lower "foo"). reflexivity.
Defined.

(** X7.  The first loop returns at its first hit: when a record with the
    exact title on a Flash platform (the case folded by [str.lower])
    follows only catalog records that are not such a hit, it is selected
    whatever comes after it in the list, malformed entries included.  A
    malformed entry is fatal only when the loops reach it: the list of
    Foo/Web followed by the number 1 raises for the term foo, although its
    first record has the exact title. *)
Theorem pick_stops_at_first_hit :
  (forall (lower : string -> string) (term : string)
          (before after : list json) (r : json),
      (forall x : json,
          In x before ->
          Policy.is_record x = true /\ Policy.rule1 lower term x = false) ->
      Policy.is_record r = true ->
      Policy.rule1 lower term r = true ->
      pick lower term (JArr (before ++ r :: after)) = Ok r) /\
  (forall lower : string -> string,
      ascii_faithful lower ->
      pick lower "foo" (JArr [Scenario.web_foo; JInt 1]) = Raise AttributeError).
Proof.
  split.
  2: { intros lower H. unfold pick, Scenario.web_foo.
       change (Py.iter (JArr ?l)) with (Ok l). cbn [rbind first_where].
       destruct (tests_on_ascii lower "Foo" "Web" "foo" H eq_refl eq_refl eq_refl)
         as (_ & _ & ->).
       reflexivity. }
  intros lower term before after r Hb Hrec Hr. unfold pick. simpl.
  rewrite (first_where_app _ before after r); [reflexivity | |].
  - intros x Hx. destruct (Hb x Hx) as [H1 H2].
    rewrite (title_and_flash_record lower term x H1), H2. reflexivity.
  - rewrite (title_and_flash_record lower term r Hrec), Hr. reflexivity.
Qed.

Lemma pick_stops_at_first_hit_witness :
  pick Text.lower "foo"
       (JArr ([Scenario.web_foo] ++ Scenario.flash_foo :: [JInt 1; JNull]))
  = Ok Scenario.flash_foo /\
  pick Text.lower "foo" (JArr [Scenario.web_foo; JInt 1]) = Raise AttributeError.
Proof.
  split.
  - apply (proj1 pick_stops_at_first_hit).
    + intros x [<- | []]. split; reflexivity.
    + reflexivity.
    + reflexivity.
  - apply (proj2 pick_stops_at_first_hit). intros s _. reflexivity.
Defined.

(** ** Requests: how many, to whom, in which order *)

(** X9.  [search_flashpoint] issues one query whatever comes of it: when
    the request object can be built, the world it ends in has exactly the
    catalog request more, with the default timeout of 20 seconds, also when
    the selection raises; when it cannot, nothing is sent. *)
Theorem search_flashpoint_one_request (rt : runtime) (title : string)
        (w w' : world) (r : result (option json)) :
  search_flashpoint rt title w = (r, w') ->
  (url_type_known rt (search_url title) = true /\
   w' = logged w (Request (search_url title) 20)) \/
  (url_type_known rt (search_url title) = false /\
   r = Raise ValueError /\ w' = w).
Proof.
  unfold search_flashpoint, bind, http_get.
  destruct (url_type_known rt (search_url title));
    [| intros [= <- <-]; right; auto].
  intros H. left. split; [reflexivity |]. revert H.
  destruct (respond rt (sent w) (Request (search_url title) 20)) as [d |];
    [| intros [= _ <-]; reflexivity].
  destruct (negb (Py.some_bytes (Some d))); [intros [= _ <-]; reflexivity |].
  destruct (json_loads rt d) as [results |]; [| intros [= _ <-]; reflexivity].
  destruct (negb (Py.truthy results)); [intros [= _ <-]; reflexivity |].
  unfold lift. destruct (pick (str_lower rt) title results);
    intros [= _ <-]; reflexivity.
Qed.

Lemma search_flashpoint_one_request_witness :
  snd (search_flashpoint Scenario.catalog_error "Tanks" Scenario.empty_world)
  = logged Scenario.empty_world (Request (search_url "Tanks") 20).
Proof.
  destruct (search_flashpoint_one_request
              Scenario.catalog_error "Tanks" Scenario.empty_world
              (snd (search_flashpoint Scenario.catalog_error "Tanks"
                                      Scenario.empty_world))
              (fst (search_flashpoint Scenario.catalog_error "Tanks"
                                      Scenario.empty_world)))
    as [[_ H] | [H _]].
  - destruct (search_flashpoint Scenario.catalog_error "Tanks" Scenario.empty_world).
    reflexivity.
  - exact H.
  - vm_compute in H. discriminate H.
Defined.

(** X10.  The index query fails softly: a failed request, an empty or
    undecodable body, and a decoded value with fewer than two items make
    [try_wayback] return [None] after that one request. *)
Theorem try_wayback_soft (rt : runtime) (url : json) (u : string) (w : world) :
  usable_url url = Ok (Some u) ->
  url_type_known rt (cdx_url u) = true ->
  respond rt (sent w) (Request (cdx_url u) 20) = None \/
  respond rt (sent w) (Request (cdx_url u) 20) = Some [] \/
  (exists d : bytes,
      respond rt (sent w) (Request (cdx_url u) 20) = Some d /\
      json_loads rt d = None) \/
  (exists (d : bytes) (rows : json) (n : nat),
      respond rt (sent w) (Request (cdx_url u) 20) = Some d /\
      json_loads rt d = Some rows /\ Py.len rows = Ok n /\ (n < 2)%nat) ->
  try_wayback rt url w = (Ok None, logged w (Request (cdx_url u) 20)).
Proof.
  intros Hu Hk H. unfold try_wayback, bind, lift. rewrite Hu. simpl.
  unfold http_get. rewrite Hk.
  destruct H as [-> | [-> | [(d & -> & Hj) | (d & rows & n & -> & Hj & Hn & Hlt)]]];
    try reflexivity.
  - destruct d; [reflexivity |]. simpl. rewrite Hj. reflexivity.
  - destruct d; [reflexivity |]. simpl. rewrite Hj, Hn. simpl.
    destruct (Nat.ltb_spec n 2); [reflexivity | lia].
Qed.

Lemma try_wayback_soft_witness :
  try_wayback Scenario.y_online (JStr Scenario.tanks_url) Scenario.empty_world
  = (Ok None,
     logged Scenario.empty_world (Request (cdx_url Scenario.tanks_url) 20)).
Proof.
  apply (try_wayback_soft Scenario.y_online (JStr Scenario.tanks_url)
                          Scenario.tanks_url).
  - reflexivity.
  - vm_compute. reflexivity.
  - left. vm_compute. reflexivity.
Defined.

(** X11.  [http_get] builds the request before its [try]: a launch
    command that passes the guard but that [Request] rejects (one without
    a scheme) ends the direct step with [ValueError] before anything is
    sent, and the archive step is not tried. *)
Theorem unknown_url_type_aborts (rt : runtime) (url : json) (u : string)
        (w : world) :
  usable_url url = Ok (Some u) ->
  url_type_known rt u = false ->
  http_get rt u 15 w = (Raise ValueError, w) /\
  try_direct rt url w = (Raise ValueError, w) /\
  retrieve rt url w = (Raise ValueError, w).
Proof.
  intros Hu Hk.
  assert (Hg : http_get rt u 15 w = (Raise ValueError, w)).
  { unfold http_get. rewrite Hk. reflexivity. }
  assert (Hd : try_direct rt url w = (Raise ValueError, w)).
  { unfold try_direct, bind, lift. rewrite Hu. simpl. rewrite Hg. reflexivity. }
  split; [exact Hg | split; [exact Hd |]].
  unfold retrieve, bind. rewrite Hd. reflexivity.
Qed.

Lemma unknown_url_type_aborts_witness :
  retrieve Scenario.relative_launch (JStr "games/tanks.swf") Scenario.empty_world
  = (Raise ValueError, Scenario.empty_world) /\
  fst (run Scenario.relative_launch ["tanks"] Scenario.empty_world)
  = Raise ValueError.
Proof.
  split.
  - apply (unknown_url_type_aborts Scenario.relative_launch
                                   (JStr "games/tanks.swf") "games/tanks.swf");
      reflexivity.
  - vm_compute. reflexivity.
Defined.

(** X12.  A record that gives nothing to download costs one request: when
    the selected record is empty, or when its launch command is missing,
    false or starts with http://localflash, [fetch_game] returns [fail] in
    the world the catalog query left. *)
Theorem dead_record_costs_one_request (rt : runtime) (slug : string)
        (w w1 : world) (record : json) :
  files w !! out_path rt slug = None ->
  search_flashpoint rt (slug_to_title slug) w = (Ok (Some record), w1) ->
  Py.truthy record = false \/
  (exists launch_cmd : json,
      Py.get record "launchCommand" (JStr "") = Ok launch_cmd /\
      usable_url launch_cmd = Ok None) ->
  fetch_game rt slug w = (Ok fail, w1).
Proof.
  intros Hnone Hs H. unfold fetch_game. unfold bind at 1. unfold path_exists.
  rewrite bool_decide_eq_false_2 by (rewrite Hnone; intros [x Hx]; discriminate).
  unfold bind at 1. rewrite Hs. unfold no_match.
  destruct (Py.truthy record) eqn:Ht; simpl.
  - destruct H as [H | (launch_cmd & Hget & Hu)]; [discriminate |].
    destruct record as [| | | | | | fields]; try discriminate.
    simpl in Hget. injection Hget as Hget.
    unfold bind at 1. simpl. unfold bind at 1. simpl. unfold bind at 1. simpl.
    rewrite Hget. unfold bind at 1.
    unfold retrieve, bind, try_direct, try_wayback, bind, lift.
    rewrite Hu. reflexivity.
  - reflexivity.
Qed.

Lemma dead_record_costs_one_request_witness :
  fetch_game Scenario.no_launch "tanks" Scenario.empty_world
  = (Ok fail, logged Scenario.empty_world (Request (search_url "Tanks") 20)).
Proof.
  apply (dead_record_costs_one_request Scenario.no_launch "tanks"
           Scenario.empty_world _ Scenario.bare_record).
  - vm_compute. reflexivity.
  - vm_compute. reflexivity.
  - right. exists (JStr ""). split; reflexivity.
Defined.

Section Budget.

Context (rt : runtime).

Lemma search_flashpoint_trace (title : string) (w w' : world)
      (r : result (option json)) :
  search_flashpoint rt title w = (r, w') ->
  (w' = w /\ exists e : exn, r = Raise e) \/
  w' = logged w (Request (search_url title) 20).
Proof.
  unfold search_flashpoint, bind, http_get.
  destruct (url_type_known rt (search_url title));
    [| intros [= <- <-]; left; eauto].
  intros H. right. revert H.
  destruct (respond rt (sent w) (Request (search_url title) 20)) as [d |];
    [| intros [= _ <-]; reflexivity].
  destruct (negb (Py.some_bytes (Some d))); [intros [= _ <-]; reflexivity |].
  destruct (json_loads rt d) as [results |]; [| intros [= _ <-]; reflexivity].
  destruct (negb (Py.truthy results)); [intros [= _ <-]; reflexivity |].
  unfold lift. destruct (pick (str_lower rt) title results);
    intros [= _ <-]; reflexivity.
Qed.

Lemma try_direct_trace (url : json) (w w' : world) (r : result (option bytes)) :
  try_direct rt url w = (r, w') ->
  (w' = w /\ ((r = Ok None /\ usable_url url = Ok None) \/
              exists e : exn, r = Raise e)) \/
  (exists (u : string) (swf : option bytes),
      usable_url url = Ok (Some u) /\ r = Ok swf /\
      w' = logged w (Request u 15)).
Proof.
  unfold try_direct, bind, lift.
  destruct (usable_url url) as [[u |] | e]; simpl.
  - unfold http_get. destruct (url_type_known rt u).
    + destruct (is_valid_swf (respond rt (sent w) (Request u 15)));
        intros [= <- <-]; right; eauto.
    + intros [= <- <-]. left. eauto.
  - intros [= <- <-]. left. auto.
  - intros [= <- <-]. left. eauto.
Qed.

Lemma try_wayback_trace (url : json) (w w' : world) (r : result (option bytes)) :
  try_wayback rt url w = (r, w') ->
  w' = w \/
  (exists u : string,
      usable_url url = Ok (Some u) /\
      (w' = logged w (Request (cdx_url u) 20) \/
       exists ts : string,
         w' = logged (logged w (Request (cdx_url u) 20))
                     (Request (WAYBACK_RAW ts u) 30))).
Proof.
  unfold try_wayback, bind, lift.
  destruct (usable_url url) as [[u |] | e]; simpl;
    [| intros [= _ <-]; auto | intros [= _ <-]; auto].
  unfold http_get at 1. destruct (url_type_known rt (cdx_url u));
    [| intros [= _ <-]; auto].
  intros H. right. exists u. split; [reflexivity |]. revert H.
  destruct (respond rt (sent w) (Request (cdx_url u) 20)) as [d |];
    [| intros [= _ <-]; auto].
  destruct (negb (Py.some_bytes (Some d))); [intros [= _ <-]; auto |].
  destruct (json_loads rt d) as [rows |]; [| intros [= _ <-]; auto].
  destruct (Py.len rows) as [n | e]; simpl; [| intros [= _ <-]; auto].
  destruct (n <? 2)%nat; [intros [= _ <-]; auto |].
  destruct (Py.index rows 1) as [row | e]; simpl; [| intros [= _ <-]; auto].
  destruct (Py.index row 0) as [timestamp | e]; simpl; [| intros [= _ <-]; auto].
  unfold http_get.
  destruct (url_type_known rt (WAYBACK_RAW (format_value rt timestamp) u));
    [| intros [= _ <-]; auto].
  match goal with
  | |- context [is_valid_swf ?x] => destruct (is_valid_swf x)
  end; intros [= _ <-]; right; exists (format_value rt timestamp); reflexivity.
Qed.

(** The requests of the two retrieval steps. *)
Lemma retrieve_trace (url : json) (w w' : world) (r : result (option bytes)) :
  retrieve rt url w = (r, w') ->
  exists (u ts : string) (more : list request),
    sent_since w w' more /\
    more `prefix_of` [Request u 15; Request (cdx_url u) 20;
                      Request (WAYBACK_RAW ts u) 30].
Proof.
  unfold retrieve, bind, sent_since.
  destruct (try_direct rt url w) as [[swf | e] w1] eqn:Hd.
  - destruct (try_direct_trace _ _ _ _ Hd)
      as [(-> & [(Hr & Hu) | (e & He)]) | (u & swf' & Hu & Hr & ->)].
    + injection Hr as ->. simpl. intros Hw.
      destruct (try_wayback_trace _ _ _ _ Hw) as [-> | (u & Hu' & _)];
        [| congruence].
      exists "", "", []. split; [rewrite app_nil_r; reflexivity |].
      eexists. reflexivity.
    + discriminate.
    + destruct (negb (Py.some_bytes swf)).
      * intros Hw.
        destruct (try_wayback_trace _ _ _ _ Hw)
          as [-> | (u' & Hu' & [-> | (ts & ->)])].
        -- exists u, "", [Request u 15]. split; [reflexivity |].
           eexists. reflexivity.
        -- assert (u' = u) by congruence. subst u'.
           exists u, "", [Request u 15; Request (cdx_url u) 20].
           split; [simpl; rewrite <- app_assoc; reflexivity |].
           eexists. reflexivity.
        -- assert (u' = u) by congruence. subst u'.
           exists u, ts, [Request u 15; Request (cdx_url u) 20;
                          Request (WAYBACK_RAW ts u) 30].
           split; [simpl; rewrite <- !app_assoc; reflexivity |].
           exists []. reflexivity.
      * intros [= _ <-]. exists u, "", [Request u 15].
        split; [reflexivity |]. eexists. reflexivity.
  - intros [= _ <-].
    destruct (try_direct_trace _ _ _ _ Hd)
      as [(-> & _) | (u & swf' & _ & Hr & _)]; [| discriminate].
    exists "", "", []. split; [rewrite app_nil_r; reflexivity |].
    eexists. reflexivity.
Qed.

(** The requests of one identifier. *)
Lemma fetch_game_trace (slug : string) (w w' : world) (r : result outcome) :
  fetch_game rt slug w = (r, w') ->
  exists (u ts : string) (more : list request),
    sent_since w w' more /\
    more `prefix_of` [Request (search_url (slug_to_title slug)) 20;
                      Request u 15; Request (cdx_url u) 20;
                      Request (WAYBACK_RAW ts u) 30].
Proof.
  assert (Hnone : forall w1 : world,
             w1 = w ->
             exists (u ts : string) (more : list request),
               sent_since w w1 more /\
               more `prefix_of` [Request (search_url (slug_to_title slug)) 20;
                                 Request u 15; Request (cdx_url u) 20;
                                 Request (WAYBACK_RAW ts u) 30]).
  { intros w1 ->. exists "", "", []. split.
    - unfold sent_since. rewrite app_nil_r. reflexivity.
    - eexists. reflexivity. }
  assert (Hone : forall w1 : world,
             w1 = logged w (Request (search_url (slug_to_title slug)) 20) ->
             exists (u ts : string) (more : list request),
               sent_since w w1 more /\
               more `prefix_of` [Request (search_url (slug_to_title slug)) 20;
                                 Request u 15; Request (cdx_url u) 20;
                                 Request (WAYBACK_RAW ts u) 30]).
  { intros w1 ->.
    exists "", "", [Request (search_url (slug_to_title slug)) 20]. split.
    - reflexivity.
    - eexists. reflexivity. }
  unfold fetch_game. unfold bind at 1. unfold path_exists.
  destruct (bool_decide (is_Some (files w !! out_path rt slug)));
    [intros [= _ <-]; apply Hnone; reflexivity |].
  unfold bind at 1.
  destruct (search_flashpoint rt (slug_to_title slug) w) as [[found | e] w1] eqn:Hs;
    destruct (search_flashpoint_trace _ _ _ _ Hs) as [(-> & e' & He) | ->];
    try discriminate;
    try (intros [= _ <-];
         first [apply Hnone; reflexivity | apply Hone; reflexivity]).
  destruct found as [record |]; [| intros [= _ <-]; apply Hone; reflexivity].
  destruct (no_match (Some record)); [intros [= _ <-]; apply Hone; reflexivity |].
  unfold bind at 1, lift at 1.
  destruct (Py.get record "title" (JStr "?")) as [found_title | e];
    [| intros [= _ <-]; apply Hone; reflexivity].
  unfold ret at 1, bind at 1, lift at 1.
  destruct (Py.get record "platform" (JStr "?")) as [platform | e];
    [| intros [= _ <-]; apply Hone; reflexivity].
  unfold ret at 1, bind at 1, lift at 1.
  destruct (Py.get record "launchCommand" (JStr "")) as [launch_cmd | e];
    [| intros [= _ <-]; apply Hone; reflexivity].
  unfold ret at 1, bind at 1.
  destruct (retrieve rt launch_cmd _) as [[swf | e] w2] eqn:Hr;
    destruct (retrieve_trace _ _ _ _ Hr) as (u & ts & more & Hsent & k & Hk).
  - intros H.
    assert (Hw : sent w' = sent w2).
    { revert H. destruct swf as [data |]; [| intros [= _ <-]; reflexivity].
      destruct (Py.some_bytes (Some data)); [| intros [= _ <-]; reflexivity].
      unfold bind, write_file, ret. intros [= _ <-]. reflexivity. }
    exists u, ts, (Request (search_url (slug_to_title slug)) 20 :: more).
    unfold sent_since in *. split.
    + rewrite Hw, Hsent. simpl. rewrite <- app_assoc. reflexivity.
    + exists k. simpl. rewrite Hk. reflexivity.
  - intros [= _ <-].
    exists u, ts, (Request (search_url (slug_to_title slug)) 20 :: more).
    unfold sent_since in *. split.
    + rewrite Hsent. simpl. rewrite <- app_assoc. reflexivity.
    + exists k. simpl. rewrite Hk. reflexivity.
Qed.

End Budget.

(** X13.  One identifier costs at most four requests and never a retry:
    what [fetch_game] sends is an initial part of the sequence catalog
    query (20 s), launch URL (15 s), index query for that URL (20 s), raw
    capture of that URL (30 s).  A run over n identifiers, finished or
    aborted, only appends to the log, at most 4n requests. *)
Theorem request_budget (rt : runtime) :
  (forall (slug : string) (w w' : world) (r : result outcome),
      fetch_game rt slug w = (r, w') ->
      exists (u ts : string) (more : list request),
        sent_since w w' more /\
        more `prefix_of` [Request (search_url (slug_to_title slug)) 20;
                          Request u 15; Request (cdx_url u) 20;
                          Request (WAYBACK_RAW ts u) 30]) /\
  (forall (games : list string) (t : tally) (w w' : world) (r : result tally),
      main_loop rt games t w = (r, w') ->
      exists more : list request,
        sent_since w w' more /\ (length more <= 4 * length games)%nat).
Proof.
  split; [apply fetch_game_trace |].
  induction games as [| slug rest IH]; intros t w w' r.
  - intros [= _ <-]. exists []. unfold sent_since.
    rewrite app_nil_r. split; [reflexivity | simpl; lia].
  - rewrite main_loop_step.
    destruct (fetch_game rt slug w) as [[o | e] w1] eqn:Hf;
      destruct (fetch_game_trace rt _ _ _ _ Hf)
        as (u & ts & more & Hsent & k & Hk);
      assert (Hlen : (length more <= 4)%nat)
        by (apply (f_equal (@length request)) in Hk;
            rewrite length_app in Hk; simpl in Hk; lia).
    + intros H. destruct (IH _ _ _ _ H) as (more' & Hsent' & Hlen').
      exists (more ++ more'). unfold sent_since in *. split.
      * rewrite Hsent'. unfold after_step.
        destruct (bool_decide (o <> skip)); simpl; rewrite Hsent, app_assoc;
          reflexivity.
      * rewrite length_app. simpl. lia.
    + intros [= _ <-]. exists more. split; [exact Hsent | simpl; lia].
Qed.

Lemma request_budget_witness :
  exists more : list request,
    sent_since Scenario.empty_world
               (snd (run Scenario.tanks_gone ["tanks"] Scenario.empty_world))
               more /\
    (length more <= 4 * 1)%nat.
Proof.
  apply (proj2 (request_budget Scenario.tanks_gone) ["tanks"] (Tally [] [] [])
               Scenario.empty_world _
               (fst (run Scenario.tanks_gone ["tanks"] Scenario.empty_world))).
  unfold run.
  destruct (main_loop Scenario.tanks_gone ["tanks"] (Tally [] [] [])
                      Scenario.empty_world).
  reflexivity.
Defined.

(** ** Pauses and stored files over a run *)

Lemma naps_after_step (o : outcome) (w : world) :
  naps (after_step o w)
  = (naps w + match o with skip => 0 | _ => 1 end)%nat.
Proof.
  destruct o; unfold after_step.
  - rewrite bool_decide_eq_true_2 by discriminate. unfold paused. simpl. lia.
  - rewrite bool_decide_eq_false_2 by (intros H; apply H; reflexivity). lia.
  - rewrite bool_decide_eq_true_2 by discriminate. unfold paused. simpl. lia.
Qed.

Lemma main_loop_naps (rt : runtime) (games : list string) (t t' : tally)
      (w w' : world) :
  main_loop rt games t w = (Ok t', w') ->
  (naps w' + length (t_ok t) + length (t_fail t)
   = naps w + length (t_ok t') + length (t_fail t'))%nat.
Proof.
  revert t w. induction games as [| slug rest IH]; intros t w.
  - intros [= <- <-]. reflexivity.
  - rewrite main_loop_step.
    destruct (fetch_game rt slug w) as [[o | e] w1] eqn:Hf; [| discriminate].
    intros H. specialize (IH _ _ H).
    assert (Hn : naps w1 = naps w).
    { destruct (fetch_game_cases rt _ _ _ _ Hf)
        as [(_ & -> & _) | [(_ & _ & Hn & _) | (_ & _ & _ & _ & Hn)]];
        [reflexivity | exact Hn | exact Hn]. }
    rewrite naps_after_step, Hn in IH.
    destruct o; simpl in IH; rewrite ?length_app in IH; simpl in IH; lia.
Qed.

(** X14.  The polite delay is taken once for every identifier that was
    not skipped: a run that reaches the summary has paused as many times
    as it lists downloaded and failed identifiers. *)
Theorem pauses_count (rt : runtime) (games : list string) (w w' : world)
        (t : tally) :
  run rt games w = (Ok t, w') ->
  naps w' = (naps w + length (t_ok t) + length (t_fail t))%nat.
Proof.
  intros H. unfold run in H.
  pose proof (main_loop_naps rt games (Tally [] [] []) t w w' H) as Hn.
  change (t_ok (Tally [] [] [])) with (@nil string) in Hn.
  change (t_fail (Tally [] [] [])) with (@nil string) in Hn.
  change (length (@nil string)) with 0%nat in Hn. lia.
Qed.

Lemma pauses_count_witness :
  naps (snd (run Scenario.y_online ["x"; "y"] Scenario.x_stored)) = 1%nat.
Proof.
  apply (pauses_count Scenario.y_online ["x"; "y"] Scenario.x_stored _
                      (Tally ["y"] ["x"] [])).
  vm_compute. reflexivity.
Defined.

(** A file that is there keeps its content through [fetch_game]. *)
Lemma fetch_game_keeps_files (rt : runtime) (slug : string) (w w' : world)
      (r : result outcome) (path : string) (data : bytes) :
  fetch_game rt slug w = (r, w') ->
  files w !! path = Some data -> files w' !! path = Some data.
Proof.
  intros Hf Hp.
  destruct (fetch_game_cases rt _ _ _ _ Hf)
    as [(_ & -> & _) | [(_ & Hnone & _ & body & _ & Hw) | (_ & _ & _ & Hw & _)]];
    [exact Hp | | rewrite Hw; exact Hp].
  rewrite Hw. rewrite lookup_insert_ne; [exact Hp |].
  intros <-. rewrite Hnone in Hp. discriminate.
Qed.

(** X15.  Nothing stored is ever overwritten or removed: a file that
    exists keeps its content through [fetch_game] and through the whole
    loop of [main], whether the run finishes or is aborted. *)
Theorem stored_files_kept (rt : runtime) :
  (forall (slug : string) (w w' : world) (r : result outcome)
          (path : string) (data : bytes),
      fetch_game rt slug w = (r, w') ->
      files w !! path = Some data -> files w' !! path = Some data) /\
  (forall (games : list string) (t : tally) (w w' : world) (r : result tally)
          (path : string) (data : bytes),
      main_loop rt games t w = (r, w') ->
      files w !! path = Some data -> files w' !! path = Some data).
Proof.
  split; [apply fetch_game_keeps_files |].
  induction games as [| slug rest IH]; intros t w w' r path data.
  - intros [= _ <-]. auto.
  - rewrite main_loop_step.
    destruct (fetch_game rt slug w) as [[o | e] w1] eqn:Hf.
    + intros H Hp. apply (IH _ _ _ _ _ _ H).
      rewrite after_step_files.
      apply (fetch_game_keeps_files _ _ _ _ _ _ _ Hf Hp).
    + intros [= _ <-] Hp. apply (fetch_game_keeps_files _ _ _ _ _ _ _ Hf Hp).
Qed.

Lemma stored_files_kept_witness :
  files (snd (run Scenario.y_online ["x"; "y"] Scenario.x_stored))
        !! out_path Scenario.y_online "x"
  = Some Scenario.swf_body.
Proof.
  apply (proj2 (stored_files_kept Scenario.y_online) ["x"; "y"] (Tally [] [] [])
               Scenario.x_stored _
               (fst (run Scenario.y_online ["x"; "y"] Scenario.x_stored))).
  - unfold run.
    destruct (main_loop Scenario.y_online ["x"; "y"] (Tally [] [] [])
                        Scenario.x_stored).
    reflexivity.
  - vm_compute. reflexivity.
Defined.

Lemma main_loop_downloaded (rt : runtime) (w0 : world) (games : list string)
      (t t' : tally) (w w' : world) :
  main_loop rt games t w = (Ok t', w') ->
  (forall (path : string) (data : bytes),
      files w0 !! path = Some data -> files w !! path = Some data) ->
  (forall slug : string,
      In slug (t_ok t) ->
      files w0 !! out_path rt slug = None /\
      exists data : bytes,
        files w !! out_path rt slug = Some data /\
        is_valid_swf (Some data) = true) ->
  forall slug : string,
    In slug (t_ok t') ->
    files w0 !! out_path rt slug = None /\
    exists data : bytes,
      files w' !! out_path rt slug = Some data /\
      is_valid_swf (Some data) = true.
Proof.
  revert t w. induction games as [| slug rest IH]; intros t w.
  - intros [= <- <-]. auto.
  - rewrite main_loop_step.
    destruct (fetch_game rt slug w) as [[o | e] w1] eqn:Hf; [| discriminate].
    intros H Hsub Hinv. apply (IH _ _ H).
    + intros path data Hp. rewrite after_step_files.
      apply (fetch_game_keeps_files _ _ _ _ _ _ _ Hf), Hsub, Hp.
    + intros s Hs. rewrite after_step_files.
      assert (Hold : In s (t_ok t) ->
                     files w0 !! out_path rt s = None /\
                     exists data : bytes,
                       files w1 !! out_path rt s = Some data /\
                       is_valid_swf (Some data) = true).
      { intros Hin. destruct (Hinv s Hin) as (H0 & data & Hd & Hv).
        split; [exact H0 |]. exists data. split; [| exact Hv].
        apply (fetch_game_keeps_files _ _ _ _ _ _ _ Hf Hd). }
      destruct o; simpl in Hs; [| auto | auto].
      apply in_app_or in Hs. destruct Hs as [Hs | [<- | []]]; [auto |].
      destruct (fetch_game_cases rt _ _ _ _ Hf)
        as [(Hr & _) | [(_ & Hnone & _ & data & Hv & Hw) | (_ & Hr & _)]];
        [discriminate | | congruence].
      split.
      * destruct (files w0 !! out_path rt slug) as [d |] eqn:E; [| reflexivity].
        rewrite (Hsub _ _ E) in Hnone. discriminate.
      * exists data. rewrite Hw, lookup_insert_eq. auto.
Qed.

(** X16.  What the summary says about the storage: after a run that
    reaches it, every identifier listed as downloaded had no file when the
    run began and has one now whose content [is_valid_swf] accepts, and
    every identifier listed as skipped has a file. *)
Theorem summary_files (rt : runtime) (games : list string) (w w' : world)
        (t : tally) :
  run rt games w = (Ok t, w') ->
  (forall slug : string,
      In slug (t_ok t) ->
      files w !! out_path rt slug = None /\
      exists data : bytes,
        files w' !! out_path rt slug = Some data /\
        is_valid_swf (Some data) = true) /\
  (forall slug : string,
      In slug (t_skip t) -> is_Some (files w' !! out_path rt slug)).
Proof.
  intros H. split.
  - apply (main_loop_downloaded rt w _ _ _ _ _ H); [auto |].
    simpl. intros slug [].
  - intros slug Hs. apply (main_loop_stored rt _ _ _ _ _ H); [| auto].
    simpl. intros s [[] | []].
Qed.

Lemma summary_files_witness :
  files Scenario.x_stored !! out_path Scenario.y_online "y" = None /\
  exists data : bytes,
    files (snd (run Scenario.y_online ["x"; "y"] Scenario.x_stored))
          !! out_path Scenario.y_online "y" = Some data /\
    is_valid_swf (Some data) = true.
Proof.
  apply (proj1 (summary_files Scenario.y_online ["x"; "y"] Scenario.x_stored _
                              (Tally ["y"] ["x"] []) eq_refl)).
  left. reflexivity.
Defined.

Lemma search_flashpoint_soft_witness :
  search_flashpoint Scenario.y_online "Tanks" Scenario.empty_world
  = (Ok None, logged Scenario.empty_world (Request (search_url "Tanks") 20)).
Proof.
  apply (search_flashpoint_soft Scenario.y_online "Tanks" Scenario.empty_world
                                _ None).
  - vm_compute. reflexivity.
  - left. reflexivity.
Defined.

Lemma run_partitions_witness :
  partitions (Tally ["y"] ["x"] []) ["x"; "y"] /\
  (let '(downloaded, skipped, failed) := counts (Tally ["y"] ["x"] []) in
   downloaded + skipped + failed = length ["x"; "y"])%nat.
Proof.
  apply (run_partitions Scenario.y_online ["x"; "y"] Scenario.x_stored
                        (snd (run Scenario.y_online ["x"; "y"] Scenario.x_stored))).
  vm_compute. reflexivity.
Defined.
